(** * AI_Search-Agent: the job tracker (api_server.py) and the provider
      client (web_operations.py)

    A shallow embedding of the two Python modules, and the properties of
    the life cycle of a job, of the session store and of the provider
    boundary.

    How the code is modelled

    - [search_sessions], a module-level dict of dicts, is a [gmap string
      Session]; a session dict, whose keys are fixed by [start_search], is
      a record.  [completed_at], the only key added later, is an option.
    - [datetime.now()] is read from an arbitrary clock: the world counts
      the readings and a [Clock] formats the n-th one.
    - [print] and [logger.error] append to a console.
    - The body of [run_research_with_tracking] is a finite program of
      atomic statements with a normal and an exceptional exit each.  It is
      run as far as it goes in one go ([exec]), or one statement at a
      time, interleaved with the request handlers and with the other
      trackers ([sys_step]).  A run ends when the function returns or an
      exception leaves it, or it waits for ever: leaving the [with]
      block of the executor joins the worker.
    - An exception carries whether it is an [Exception], which is what
      [except Exception] catches, and whether it is a
      [concurrent.futures.TimeoutError].  A statement (a subscript assignment, a [dict.update],
      a call of [log_to_session] or of [update_session_progress]) is taken
      to be atomic with respect to the handlers.
    - [graph.invoke] is the opaque pipeline, an arbitrary [Behaviour]:
      a value after some seconds, an exception after some seconds, or no
      answer at all.  The two statements that [run_graph] runs on the
      worker before [graph.invoke] are taken to be over before the wait
      of the tracker ends.
    - [uuid.uuid4()] is an arbitrary identifier that was not issued
      before.
    - [requests.post] is an arbitrary network: a reply for the n-th
      request.  A response carries what [raise_for_status] and [json()]
      do on it. *)

From stdpp Require Import gmap strings list fin_maps.
From Stdlib Require Import ZArith Ascii String DecimalString.

Open Scope string_scope.
Open Scope Z_scope.

(** ** Python values shared by both modules *)

Module Py.

(** The line feed of ["\n"]. *)
Definition nl : string := String (ascii_of_nat 10) EmptyString.

(** Truth value of a [str]: only the empty string is falsy. *)
Definition str_truthy (s : string) : bool :=
  match s with
  | EmptyString => false
  | String _ _ => true
  end.

(** *** [repr] of a [str] *)

Definition apostrophe : ascii := ascii_of_nat 39.
Definition double_quote : ascii := ascii_of_nat 34.
Definition backslash : ascii := ascii_of_nat 92.

(** All the characters are ASCII ([str.isascii]). *)
Fixpoint is_ascii (s : string) : bool :=
  match s with
  | EmptyString => true
  | String c r => (nat_of_ascii c <? 128)%nat && is_ascii r
  end.

Fixpoint contains (c : ascii) (s : string) : bool :=
  match s with
  | EmptyString => false
  | String c' r => Ascii.eqb c c' || contains c r
  end.

(** The quote [repr] puts around [s]: the apostrophe, unless [s] holds
    an apostrophe and no double quote. *)
Definition repr_quote (s : string) : ascii :=
  if contains apostrophe s && negb (contains double_quote s)
  then double_quote else apostrophe.

Definition lower_hex_digit (n : nat) : ascii :=
  if (n <? 10)%nat then ascii_of_nat (48 + n) else ascii_of_nat (87 + n).

(** One character between the quotes: the quote and the backslash get a
    backslash; tab, line feed and carriage return are written with their
    letter, the other control characters and DEL as [\xhh]. *)
Definition repr_char (quote c : ascii) : string :=
  let n := nat_of_ascii c in
  if Ascii.eqb c quote || Ascii.eqb c backslash
  then String backslash (String c EmptyString)
  else if (n =? 9)%nat then String backslash "t"
  else if (n =? 10)%nat then String backslash "n"
  else if (n =? 13)%nat then String backslash "r"
  else if (n <? 32)%nat || (n =? 127)%nat
  then String backslash
         (String "x"
            (String (lower_hex_digit (n / 16))
               (String (lower_hex_digit (n mod 16)) EmptyString)))
  else String c EmptyString.

Fixpoint repr_chars (quote : ascii) (s : string) : string :=
  match s with
  | EmptyString => EmptyString
  | String c r => repr_char quote c +:+ repr_chars quote r
  end.

(** [repr(s)] of a [str] of ASCII characters.  Beyond ASCII [repr]
    escapes the characters that the Unicode database calls unprintable,
    which is not modelled: a statement about the text of [repr s]
    carries [is_ascii s]. *)
Definition repr (s : string) : string :=
  let quote := repr_quote s in
  String quote (repr_chars quote s) +:+ String quote EmptyString.

(** An exception object, as far as the tracker looks at it: whether it
    is an instance of [Exception] (a [SystemExit], a
    [KeyboardInterrupt] or a [GeneratorExit] is a [BaseException] only),
    whether it is an instance of [concurrent.futures.TimeoutError], and
    [str(e)]. *)
Record exn := Exn {
  exn_class : string;
  exn_is_exception : bool;
  exn_is_timeout : bool;
  exn_str : string
}.

(** [KeyError(k)]: [str] of a [KeyError] is the [repr] of its key. *)
Definition KeyError (k : string) : exn :=
  Exn "KeyError" true false (repr k).

(** The exception [future.result] raises when its wait expires. *)
Definition TimeoutError : exn := Exn "TimeoutError" true true "".

Definition ValueError (msg : string) : exn :=
  Exn "ValueError" true false msg.

Definition AttributeError (msg : string) : exn :=
  Exn "AttributeError" true false msg.

(** [SystemExit(code)], raised by [sys.exit]: not an [Exception]. *)
Definition SystemExit (code : string) : exn :=
  Exn "SystemExit" false false code.

(** Values as [json.loads] builds them, which is also all that the
    provider client handles.  A number is an integer here; a float
    takes the same branches (zero is falsy, it has no [get]). *)
#[warnings="-register-all"]
Inductive pyval :=
| PNone
| PBool (b : bool)
| PInt (z : Z)
| PStr (s : string)
| PList (l : list pyval)
| PDict (d : gmap string pyval).

(** Truth value, as tested by [if v:]. *)
Definition truthy (v : pyval) : bool :=
  match v with
  | PNone => false
  | PBool b => b
  | PInt z => negb (z =? 0)%Z
  | PStr s => str_truthy s
  | PList l => match l with [] => false | _ :: _ => true end
  | PDict d => negb (bool_decide (d = ∅))
  end.

Definition type_name (v : pyval) : string :=
  match v with
  | PNone => "NoneType"
  | PBool _ => "bool"
  | PInt _ => "int"
  | PStr _ => "str"
  | PList _ => "list"
  | PDict _ => "dict"
  end.

(** A value, or an exception on its way up. *)
Inductive may_raise (A : Type) :=
| Ok (a : A)
| Raised (e : exn).
Arguments Ok {A} a.
Arguments Raised {A} e.

(** [v.get(key, dflt)]: only a dict has the method. *)
Definition py_get (v : pyval) (key : string) (dflt : pyval)
  : may_raise pyval :=
  match v with
  | PDict d => Ok (default dflt (d !! key))
  | _ =>
      Raised (AttributeError
                ("'" +:+ type_name v
                     +:+ "' object has no attribute 'get'"))
  end.

(** [str] of an [int]. *)
Definition str_of_int (z : Z) : string :=
  NilZero.string_of_int (Z.to_int z).

(** [urllib.parse.quote_plus] on the bytes of a [str]: letters, digits
    and [_.-~] stay, a space becomes [+], every other byte becomes
    [%XX]. *)
Definition unreserved (c : ascii) : bool :=
  let n := nat_of_ascii c in
  ((48 <=? n) && (n <=? 57) || (65 <=? n) && (n <=? 90)
   || (97 <=? n) && (n <=? 122)
   || (n =? 95) || (n =? 46) || (n =? 45) || (n =? 126))%nat.

Definition hex_digit (n : nat) : ascii :=
  default "0"%char (list_ascii_of_string "0123456789ABCDEF" !! n).

Definition quote_byte (c : ascii) : string :=
  if unreserved c then String c EmptyString
  else if Ascii.eqb c " "%char then "+"
  else
    let n := nat_of_ascii c in
    String "%"%char
      (String (hex_digit (n / 16)) (String (hex_digit (n mod 16))
                                      EmptyString)).

Fixpoint quote_plus (s : string) : string :=
  match s with
  | EmptyString => EmptyString
  | String c rest => quote_byte c +:+ quote_plus rest
  end.

End Py.

(** ** api_server.py *)

Module ApiServer.
Import Py.

Inductive Status :=
| started | running | completed | partial_success | timeout | error.

Definition status_str (s : Status) : string :=
  match s with
  | started => "started"
  | running => "running"
  | completed => "completed"
  | partial_success => "partial_success"
  | timeout => "timeout"
  | error => "error"
  end.

Definition terminal (s : Status) : bool :=
  match s with
  | completed | partial_success | timeout | error => true
  | started | running => false
  end.

(** A value of [search_sessions]. *)
Record Session := mkSession {
  session_id : string;
  question : string;
  status : Status;
  progress : Z;
  current_step : string;
  message : string;
  result : option string;
  output_log : string;
  created_at : string;
  updated_at : string;
  completed_at : option string
}.

Inductive Event :=
| Print (line : string)
| LoggerError (line : string).

(** Formatting of the n-th reading of [datetime.now()]. *)
Record Clock := mkClock {
  strftime_HMS : nat → string;
  isoformat : nat → string
}.

Record World := mkWorld {
  search_sessions : gmap string Session;
  now_calls : nat;
  console : list Event
}.

Definition set_sessions (m : gmap string Session) (w : World) : World :=
  mkWorld m (now_calls w) (console w).

Definition tick (w : World) : World :=
  mkWorld (search_sessions w) (S (now_calls w)) (console w).

Definition emit (e : Event) (w : World) : World :=
  mkWorld (search_sessions w) (now_calls w) (console w ++ [e]).

Section Tracker.
Variable clk : Clock.

Definition set_output_log (l : string) (s : Session) : Session :=
  mkSession (session_id s) (question s) (status s) (progress s)
    (current_step s) (message s) (result s) l
    (created_at s) (updated_at s) (completed_at s).

(** [log_to_session], lines 54-60. *)
Definition log_to_session (sid msg : string) (w : World) : World :=
  match search_sessions w !! sid with
  | Some s =>
      let timestamp := strftime_HMS clk (now_calls w) in
      let log_entry := "[" +:+ timestamp +:+ "] " +:+ msg +:+ nl in
      emit (Print ("[" +:+ sid +:+ "] " +:+ msg))
        (set_sessions
           (<[sid := set_output_log (output_log s +:+ log_entry) s]>
              (search_sessions w))
           (tick w))
  | None => w
  end.

(** The dict passed to [dict.update] by [update_session_progress]. *)
Definition set_progress (p : Z) (step msg upd : string) (s : Session)
  : Session :=
  mkSession (session_id s) (question s) (status s) p step msg
    (result s) (output_log s) (created_at s) upd (completed_at s).

(** [update_session_progress], lines 62-71. *)
Definition update_session_progress (sid : string) (p : Z)
    (step msg : string) (w : World) : World :=
  match search_sessions w !! sid with
  | Some s =>
      let upd := isoformat clk (now_calls w) in
      log_to_session sid (step +:+ ": " +:+ msg)
        (set_sessions
           (<[sid := set_progress p step msg upd s]> (search_sessions w))
           (tick w))
  | None => w
  end.

Definition set_status (st : Status) (s : Session) : Session :=
  mkSession (session_id s) (question s) st (progress s)
    (current_step s) (message s) (result s) (output_log s)
    (created_at s) (updated_at s) (completed_at s).

(** The dict passed to [dict.update] on each of the four ways out
    (lines 110-117, 120-127, 131-138, 144-151). *)
Definition set_outcome (st : Status) (p : Z) (step msg res done : string)
    (s : Session) : Session :=
  mkSession (session_id s) (question s) st p step msg (Some res)
    (output_log s) (created_at s) (updated_at s) (Some done).

(** *** Atomic statements of the tracker body *)

Inductive stmt :=
| SetRunning
    (* search_sessions[session_id]["status"] = "running" *)
| Progress (p : Z) (step msg : string)
    (* update_session_progress(session_id, p, step, msg) *)
| Log (msg : string)
    (* log_to_session(session_id, msg) *)
| Outcome (st : Status) (p : Z) (step msg res : string)
    (* search_sessions[session_id].update({..., "completed_at": now}) *)
| ErrorLog (msg : string).
    (* logger.error(msg) *)

(** One statement, run by the tracker of session [sid].  A subscript
    on [search_sessions] raises [KeyError] when the id is gone, before
    the right-hand side or the argument is evaluated. *)
Definition perform (sid : string) (a : stmt) (w : World)
  : World * may_raise unit :=
  match a with
  | SetRunning =>
      match search_sessions w !! sid with
      | Some s =>
          (set_sessions (<[sid := set_status running s]>
                           (search_sessions w)) w, Ok tt)
      | None => (w, Raised (KeyError sid))
      end
  | Progress p step msg =>
      (update_session_progress sid p step msg w, Ok tt)
  | Log msg => (log_to_session sid msg w, Ok tt)
  | Outcome st p step msg res =>
      match search_sessions w !! sid with
      | Some s =>
          let done := isoformat clk (now_calls w) in
          (set_sessions
             (<[sid := set_outcome st p step msg res done s]>
                (search_sessions w))
             (tick w), Ok tt)
      | None => (w, Raised (KeyError sid))
      end
  | ErrorLog msg => (emit (LoggerError msg) w, Ok tt)
  end.

(** *** Programs: statements with a normal and an exceptional exit *)

(** [Block] is a wait that never ends: the thread runs no statement
    after it and does not return. *)
Inductive prog :=
| Ret
| Raise (e : exn)
| Block
| Do (a : stmt) (k : prog) (h : exn → prog).

Definition atomic (a : stmt) : prog := Do a Ret Raise.

Fixpoint seq (p q : prog) : prog :=
  match p with
  | Ret => q
  | Raise e => Raise e
  | Block => Block
  | Do a k h => Do a (seq k q) (fun e => seq (h e) q)
  end.

(** [try: p  except C as e: h e], where [catches e] tells whether [e]
    is an instance of the class [C]; any other exception goes on up. *)
Fixpoint try_catch (catches : exn → bool) (p : prog) (h : exn → prog)
  : prog :=
  match p with
  | Ret => Ret
  | Raise e => if catches e then h e else Raise e
  | Block => Block
  | Do a k h0 =>
      Do a (try_catch catches k h) (fun e => try_catch catches (h0 e) h)
  end.

(** [try: p  except Exception as e: h e]: an exception that is a
    [BaseException] only is not caught. *)
Definition try_except (p : prog) (h : exn → prog) : prog :=
  try_catch exn_is_exception p h.

(** [try: p  except concurrent.futures.TimeoutError: q]. *)
Definition try_except_timeout (p q : prog) : prog :=
  try_catch exn_is_timeout p (fun _ => q).

(** [p], with a wait that never ends at each of its exits. *)
Fixpoint never_leaves (p : prog) : prog :=
  match p with
  | Ret | Raise _ | Block => Block
  | Do a k h => Do a (never_leaves k) (fun e => never_leaves (h e))
  end.

Notation "p ;> q" := (seq p q) (at level 65, right associativity).

(** How a run of the tracker ends: its function returns, an exception
    leaves it (and ends the thread), or it waits for ever. *)
Inductive ending :=
| Finished
| Escaped (e : exn)
| Blocked.

(** Running a program as far as it goes, with nothing in between. *)
Fixpoint exec (sid : string) (p : prog) (w : World) : World * ending :=
  match p with
  | Ret => (w, Finished)
  | Raise e => (w, Escaped e)
  | Block => (w, Blocked)
  | Do a k h =>
      match perform sid a w with
      | (w', Ok _) => exec sid k w'
      | (w', Raised e) => exec sid (h e) w'
      end
  end.

(** The worlds a run goes through, the first one included. *)
Fixpoint history (sid : string) (p : prog) (w : World) : list World :=
  w :: match p with
       | Ret | Raise _ | Block => []
       | Do a k h =>
           match perform sid a w with
           | (w', Ok _) => history sid k w'
           | (w', Raised e) => history sid (h e) w'
           end
       end.

(** The progress of job [sid] in each of them. *)
Definition progress_history (sid : string) (p : prog) (w : World)
  : list Z :=
  omap (fun w' => progress <$> search_sessions w' !! sid)
    (history sid p w).

(** One statement of a program; [None] when it has ended or waits for
    ever. *)
Definition step1 (sid : string) (p : prog) (w : World)
  : option (World * prog) :=
  match p with
  | Do a k h =>
      match perform sid a w with
      | (w', Ok _) => Some (w', k)
      | (w', Raised e) => Some (w', h e)
      end
  | Ret | Raise _ | Block => None
  end.

(** *** The pipeline *)

(** Modelled from the spec: [main.State] and [main.graph] are not part
    of the sources.  The final state "carries an optional synthesized
    answer"; [None] stands for a missing key as well as for the value
    [None], which [dict.get] does not tell apart. *)
Record State := mkState { final_answer : option string }.

(** What [graph.invoke(state)] does on the worker: it returns a value
    (a state, or a falsy value as [None]) after some seconds, raises
    after some seconds, or never answers. *)
Inductive Behaviour :=
| Returns (seconds : Z) (final_state : option State)
| Fails (seconds : Z) (e : exn)
| Hangs.

(** [future.result(timeout=t)]: the value, or the exception of the
    worker re-raised, when the worker is done within [t] seconds;
    [TimeoutError] otherwise. *)
Definition future_result (t : Z) (b : Behaviour)
  : may_raise (option State) :=
  match b with
  | Returns d fs => if (d <=? t)%Z then Ok fs else Raised TimeoutError
  | Fails d e => if (d <=? t)%Z then Raised e else Raised TimeoutError
  | Hangs => Raised TimeoutError
  end.

(** [final_state and final_state.get("final_answer")], with the answer
    when the conjunction is truthy. *)
Definition answer_of (final_state : option State) : option string :=
  match final_state with
  | Some st =>
      match final_answer st with
      | Some a => if str_truthy a then Some a else None
      | None => None
      end
  | None => None
  end.

Definition timeout_result : string :=
  "Research process timed out. Try a simpler query or check your internet connection.".

Definition partial_result : string :=
  "Research completed with partial results. Some data sources may have failed.".

(** [with concurrent.futures.ThreadPoolExecutor() as executor: body],
    line 102, for an executor whose one task is the pipeline.  Leaving
    the block, by its end or by an exception, calls
    [executor.shutdown(wait=True)], which joins the worker: the body is
    left once the pipeline is over, and never when the pipeline never
    answers. *)
Definition with_executor (graph_invoke : Behaviour) (body : prog)
  : prog :=
  match graph_invoke with
  | Hangs => never_leaves body
  | Returns _ _ | Fails _ _ => body
  end.

(** [run_research_with_tracking], lines 73-151.  Lines 97-98 are the
    first statements of [run_graph] on the worker. *)
Definition run_research_with_tracking (graph_invoke : Behaviour)
    (question0 : string) : prog :=
  try_except
    (atomic SetRunning ;>
     atomic (Progress 5 "initializing" "Starting research process...") ;>
     atomic (Log ("🚀 Starting multi-source research for: '"
                  +:+ question0 +:+ "'")) ;>
     with_executor graph_invoke
       (atomic (Log "🔄 Starting parallel research process...") ;>
        atomic (Progress 10 "research_started"
                  "Running parallel searches...") ;>
        try_except_timeout
          (match future_result 420 graph_invoke with
           | Ok final_state =>
               match answer_of final_state with
               | Some answer =>
                   atomic (Outcome completed 100 "completed"
                             "Research completed successfully!" answer) ;>
                   atomic (Log "🎉 Research completed successfully!")
               | None =>
                   atomic (Outcome partial_success 90
                             "completed_with_issues"
                             "Research completed but with some issues"
                             partial_result) ;>
                   atomic (Log "⚠️ Research completed with some issues")
               end
           | Raised e => Raise e
           end)
          (atomic (Outcome timeout 75 "timeout"
                     "Research timed out after 7 minutes"
                     timeout_result) ;>
           atomic (Log "⏰ Research timed out after 7 minutes"))))
    (fun e =>
       atomic (ErrorLog ("Error in research process: " +:+ exn_str e)) ;>
       atomic (Log ("❌ Research failed: " +:+ exn_str e)) ;>
       atomic (Outcome error 0 "error"
                 ("Error occurred: " +:+ exn_str e)
                 ("Research failed due to an error: " +:+ exn_str e))).

(** *** Request handlers *)

Record SearchResponse := mkSearchResponse {
  search_session_id : string;
  search_status : string;
  search_message : string
}.

Record StatusResponse := mkStatusResponse {
  resp_session_id : string;
  resp_status : string;
  resp_progress : Z;
  resp_current_step : string;
  resp_message : string;
  resp_result : option string
}.

Record OutputResponse := mkOutputResponse {
  out_session_id : string;
  out_output_log : string
}.

(** What a handler hands to the framework: a body, or the
    [HTTPException] it raised. *)
Inductive http (A : Type) :=
| Response (body : A)
| HTTPException (status_code : Z) (detail : string).
Arguments Response {A} body.
Arguments HTTPException {A} status_code detail.

(** The dict stored by [start_search], lines 164-175. *)
Definition new_session (sid question0 created updated : string)
  : Session :=
  mkSession sid question0 started 0 "initializing"
    "Research session started" None "" created updated None.

(** A tracker thread: the id it was started for and what is left of
    its body. *)
Record Thread := mkThread { thread_sid : string; thread_code : prog }.

Record System := mkSystem { world : World; threads : list Thread }.

(** [start_search], lines 158-189; [uuid4] is the value of
    [str(uuid.uuid4())] and [graph_invoke] what the pipeline will do
    for this job. *)
Definition start_search (uuid4 : string) (graph_invoke : Behaviour)
    (question0 : string) (σ : System) : System * http SearchResponse :=
  let w := world σ in
  let created := isoformat clk (now_calls w) in
  let updated := isoformat clk (S (now_calls w)) in
  let w' :=
    set_sessions
      (<[uuid4 := new_session uuid4 question0 created updated]>
         (search_sessions w))
      (tick (tick w)) in
  let thread :=
    mkThread uuid4 (run_research_with_tracking graph_invoke question0) in
  (mkSystem w' (threads σ ++ [thread]),
   Response (mkSearchResponse uuid4 "started"
               "Research session started successfully")).

(** [get_search_status], lines 191-206. *)
Definition get_search_status (sid : string) (w : World)
  : http StatusResponse :=
  match search_sessions w !! sid with
  | None => HTTPException 404 "Session not found"
  | Some session =>
      Response (mkStatusResponse sid (status_str (status session))
                  (progress session) (current_step session)
                  (message session) (result session))
  end.

(** [get_output_log], lines 208-219. *)
Definition get_output_log (sid : string) (w : World)
  : http OutputResponse :=
  match search_sessions w !! sid with
  | None => HTTPException 404 "Session not found"
  | Some session => Response (mkOutputResponse sid (output_log session))
  end.

(** [delete_session], lines 221-228; the body is the value of the
    ["message"] key. *)
Definition delete_session (sid : string) (w : World)
  : World * http string :=
  match search_sessions w !! sid with
  | None => (w, HTTPException 404 "Session not found")
  | Some _ =>
      (set_sessions (delete sid (search_sessions w)) w,
       Response "Session deleted successfully")
  end.

Record HealthResponse := mkHealthResponse {
  health_status : string;
  health_timestamp : string;
  health_active_sessions : nat
}.

(** [health_check], lines 235-242: it reads the clock. *)
Definition health_check (w : World) : World * http HealthResponse :=
  (tick w,
   Response (mkHealthResponse "healthy" (isoformat clk (now_calls w))
               (size (search_sessions w)))).

(** *** The server: handlers and trackers, interleaved *)

(** The handlers that only read the store ([get_search_status],
    [get_output_log], [list_sessions]) leave the server as it is and
    have no step. *)

Definition issued (σ : System) : list string :=
  thread_sid <$> threads σ.

Inductive sys_step : System → System → Prop :=
| step_start_search σ uuid4 graph_invoke question0 :
    uuid4 ∉ issued σ →
    sys_step σ (start_search uuid4 graph_invoke question0 σ).1
| step_delete_session σ sid :
    sys_step σ (mkSystem (delete_session sid (world σ)).1 (threads σ))
| step_tracker σ i t w' p' :
    threads σ !! i = Some t →
    step1 (thread_sid t) (thread_code t) (world σ) = Some (w', p') →
    sys_step σ
      (mkSystem w' (<[i := mkThread (thread_sid t) p']> (threads σ)))
| step_health_check σ :
    sys_step σ (mkSystem (health_check (world σ)).1 (threads σ)).

(** The server after start-up: no session, no tracker. *)
Definition boot (n : nat) : System := mkSystem (mkWorld ∅ n []) [].

Definition reachable (σ : System) : Prop :=
  ∃ n, rtc sys_step (boot n) σ.

Definition session_of (σ : System) (sid : string) : option Session :=
  search_sessions (world σ) !! sid.

(** The i-th tracker runs its next statement, if it has one. *)
Definition tracker_step (i : nat) (σ : System) : option System :=
  match threads σ !! i with
  | Some t =>
      match step1 (thread_sid t) (thread_code t) (world σ) with
      | Some (w', p') =>
          Some (mkSystem w'
                  (<[i := mkThread (thread_sid t) p']> (threads σ)))
      | None => None
      end
  | None => None
  end.

(** The i-th tracker runs [n] statements in a row. *)
Fixpoint tracker_steps (n i : nat) (σ : System) : option System :=
  match n with
  | O => Some σ
  | S n' =>
      match tracker_step i σ with
      | Some σ' => tracker_steps n' i σ'
      | None => None
      end
  end.

End Tracker.

Arguments Response {A} body.
Arguments HTTPException {A} status_code detail.

Notation "p ;> q" := (seq p q) (at level 65, right associativity).

End ApiServer.

(** ** web_operations.py *)

Module WebOperations.
Import Py.

(** What [requests.post] is called with. *)
Record Request := mkRequest {
  req_url : string;
  req_headers : list (string * string);
  req_json : pyval
}.

(** What [response.json()] does. *)
Inductive Body :=
| Json (v : pyval)
| JsonRequestError (msg : string)   (* a requests JSONDecodeError *)
| JsonOtherError (msg : string).    (* any other exception *)

(** A [requests.Response]: [http_error] is the message of the
    [HTTPError] that [raise_for_status] raises, [None] when it raises
    none, which is when [response.ok] holds. *)
Record HttpResponse := mkHttpResponse {
  status_code : Z;
  text : string;
  http_error : option string;
  body : Body
}.

Definition ok (r : HttpResponse) : bool :=
  match http_error r with
  | None => true
  | Some _ => false
  end.

(** What a call of [requests.post] does. *)
Inductive Reply :=
| RequestException (msg : string)   (* raises one, a transport error *)
| OtherException (msg : string)     (* raises something else *)
| Answers (r : HttpResponse).

(** What the process has done so far. *)
Record IO := mkIO { stdout : list string; posted : list Request }.

Definition print (line : string) (io : IO) : IO :=
  mkIO (stdout io ++ [line]) (posted io).

Definition post (rq : Request) (io : IO) : IO :=
  mkIO (stdout io) (posted io ++ [rq]).

(** The value that [_make_api_request] hands back for a reply: the
    decoded body of a response that passes [raise_for_status], [None]
    for everything else. *)
Definition reply_value (r : Reply) : pyval :=
  match r with
  | Answers response =>
      match http_error response, body response with
      | None, Json v => v
      | _, _ => PNone
      end
  | RequestException _ | OtherException _ => PNone
  end.

Section Provider.
(** [os.getenv("BRIGHTDATA_API_KEY")]. *)
Variable BRIGHTDATA_API_KEY : option string.
(** The network: the reply to the n-th request of the process. *)
Variable requests_post : nat → Request → Reply.

(** [_make_api_request(url, json=payload)], lines 10-32. *)
Definition _make_api_request (url : string) (payload : pyval) (io : IO)
  : IO * pyval :=
  let api_key := default "None" BRIGHTDATA_API_KEY in
  let headers := [("Authorization", "Bearer " +:+ api_key);
                  ("Content-Type", "application/json")] in
  let rq := mkRequest url headers payload in
  let n := List.length (posted io) in
  let io := post rq io in
  match requests_post n rq with
  | Answers response =>
      let io :=
        if ok response then io
        else print ("API request failed: "
                      +:+ str_of_int (status_code response)
                      +:+ " - " +:+ text response) io in
      match http_error response with
      | Some e => (print ("API request failed: " +:+ e) io, PNone)
      | None =>
          match body response with
          | Json v => (io, v)
          | JsonRequestError e =>
              (print ("API request failed: " +:+ e) io, PNone)
          | JsonOtherError e =>
              (print ("Unknown error: " +:+ e) io, PNone)
          end
      end
  | RequestException e =>
      (print ("API request failed: " +:+ e) io, PNone)
  | OtherException e => (print ("Unknown error: " +:+ e) io, PNone)
  end.

Definition api_url : string := "https://api.brightdata.com/request".

(** The dict built in lines 48-52. *)
Definition payload_of (zone base_url query : string) : pyval :=
  PDict (<["zone" := PStr zone]>
         (<["url" := PStr (base_url +:+ "?q=" +:+ quote_plus query
                                    +:+ "&brd_json=1")]>
         (<["format" := PStr "raw"]> ∅))).

(** The dict built in lines 58-61. *)
Definition extracted_data (knowledge organic : pyval) : pyval :=
  PDict (<["knowledge" := knowledge]> (<["organic" := organic]> ∅)).

(** The loop of lines 47-68 over the zones that are left. *)
Fixpoint try_zones (engine base_url query : string)
    (zones : list string) (io : IO) : IO * may_raise pyval :=
  match zones with
  | [] =>
      (print ("❌ All zones failed for " +:+ engine +:+ " search") io,
       Ok PNone)
  | zone :: rest =>
      let payload := payload_of zone base_url query in
      let io := print ("Trying " +:+ engine +:+ " search with zone: "
                                 +:+ zone) io in
      let '(io, full_response) := _make_api_request api_url payload io in
      if truthy full_response then
        match py_get full_response "knowledge" (PDict ∅) with
        | Raised e => (io, Raised e)
        | Ok knowledge =>
            match py_get full_response "organic" (PList []) with
            | Raised e => (io, Raised e)
            | Ok organic =>
                (print ("✅ " +:+ engine
                             +:+ " search successful with zone: "
                             +:+ zone) io,
                 Ok (extracted_data knowledge organic))
            end
        end
      else
        try_zones engine base_url query rest
          (print ("❌ " +:+ engine +:+ " search failed with zone: "
                        +:+ zone) io)
  end.

Definition zones_to_try : list string := ["ai_agent"].

(** [serp_search], lines 34-68. *)
Definition serp_search (query engine : string) (io : IO)
  : IO * may_raise pyval :=
  if String.eqb engine "google" then
    try_zones engine "https://www.google.com/search" query
      zones_to_try io
  else if String.eqb engine "bing" then
    try_zones engine "https://www.bing.com/search" query
      zones_to_try io
  else
    (io, Raised (ValueError
                   "Unsupported search engine. Use 'google' or 'bing'.")).

End Provider.
End WebOperations.

(** ** The life cycle of one session, seen from its record *)

Module Lifecycle.
Import Py ApiServer.

Section Session.
Variable clk : Clock.

(** The line appended by [log_to_session] at the n-th clock reading. *)
Definition log_entry (n : nat) (msg : string) : string :=
  "[" +:+ strftime_HMS clk n +:+ "] " +:+ msg +:+ nl.

(** What a statement does to the record of its session, when the
    record is in the store; [n] is the number of clock readings made
    before. *)
Definition apply_stmt (a : stmt) (n : nat) (s : Session) : Session :=
  match a with
  | SetRunning => set_status running s
  | Progress p step msg =>
      let s' := set_progress p step msg (isoformat clk n) s in
      set_output_log
        (output_log s' +:+ log_entry (S n) (step +:+ ": " +:+ msg)) s'
  | Log msg => set_output_log (output_log s +:+ log_entry n msg) s
  | Outcome st p step msg res =>
      set_outcome st p step msg res (isoformat clk n) s
  | ErrorLog _ => s
  end.

(** The statements that subscript [search_sessions] without a test. *)
Definition raises_when_gone (a : stmt) : bool :=
  match a with
  | SetRunning | Outcome _ _ _ _ _ => true
  | Progress _ _ _ | Log _ | ErrorLog _ => false
  end.

(** [wp J G p Q s]: started on a stored record [s], every record the
    program [p] passes through satisfies [J], every statement relates
    the record before and after by [G], and [Q] holds where [p] goes
    no further, of the way it ends and of the last record. *)
Fixpoint wp (J : Session → Prop) (G : Session → Session → Prop)
    (p : prog) (Q : ending → Session → Prop) (s : Session) : Prop :=
  J s ∧
  match p with
  | Ret => Q Finished s
  | Raise e => Q (Escaped e) s
  | Block => Q Blocked s
  | Do a k _ =>
      ∀ n, G s (apply_stmt a n s) ∧ wp J G k Q (apply_stmt a n s)
  end.

Definition along (J : Session → Prop) (G : Session → Session → Prop)
    (p : prog) (s : Session) : Prop :=
  wp J G p (fun _ _ => True) s.

End Session.

(** Progress shown by a job that has ended. *)
Definition final_progress (st : Status) : Z :=
  match st with
  | completed => 100
  | partial_success => 90
  | timeout => 75
  | error => 0
  | started | running => 0
  end.

Definition error_result (description : string) : string :=
  "Research failed due to an error: " +:+ description.

(** The payload a job that has ended may carry. *)
Definition final_result (st : Status) (r : string) : Prop :=
  match st with
  | completed => r ≠ ""
  | partial_success => r = partial_result
  | timeout => r = timeout_result
  | error => ∃ description, r = error_result description
  | started | running => False
  end.

(** What holds of every stored record. *)
Record session_ok (s : Session) : Prop := mkSessionOk {
  ok_result : match result s with
              | Some r => final_result (status s) r
              | None => terminal (status s) = false
              end;
  ok_range : 0 ≤ progress s ≤ 100;
  ok_final : terminal (status s) = true →
             progress s = final_progress (status s);
  ok_live : terminal (status s) = false → progress s ≤ 10
}.

(** A record of a job that has not ended, in state [st] and with
    progress at most [b]. *)
Definition live (st : Status) (b : Z) (s : Session) : Prop :=
  session_ok s ∧ status s = st ∧ terminal st = false
  ∧ result s = None ∧ progress s ≤ b.

(** A record of a job that has ended. *)
Definition ended (s : Session) : Prop :=
  session_ok s ∧ terminal (status s) = true.

(** The four fields written on each way out of the body. *)
Definition has_outcome (st : Status) (p : Z) (msg res : string)
    (s : Session) : Prop :=
  status s = st ∧ progress s = p ∧ message s = msg ∧ result s = Some res.

(** The way out taken for each answer of [future.result]; an
    exception that no handler catches leaves the record as the first
    statements made it. *)
Definition classified (r : may_raise (option State)) (s : Session)
  : Prop :=
  match r with
  | Ok final_state =>
      match answer_of final_state with
      | Some answer =>
          has_outcome completed 100 "Research completed successfully!"
            answer s
      | None =>
          has_outcome partial_success 90
            "Research completed but with some issues" partial_result s
      end
  | Raised e =>
      if exn_is_timeout e then
        has_outcome timeout 75 "Research timed out after 7 minutes"
          timeout_result s
      else if exn_is_exception e then
        has_outcome error 0 ("Error occurred: " +:+ exn_str e)
          (error_result (exn_str e)) s
      else status s = running ∧ progress s = 10
  end.

(** How the run of the tracker of a stored job ends, for each
    pipeline: it waits for ever in the join when the pipeline never
    answers, an exception that no handler catches leaves it, and it
    returns otherwise. *)
Definition run_ending (graph_invoke : Behaviour) : ending :=
  match graph_invoke with
  | Hangs => Blocked
  | Returns _ _ | Fails _ _ =>
      match future_result 420 graph_invoke with
      | Ok _ => Finished
      | Raised e =>
          if exn_is_timeout e || exn_is_exception e then Finished
          else Escaped e
      end
  end.

(** [l'] is [l] with text added at its end. *)
Definition extends (l l' : string) : Prop := ∃ more, l' = l +:+ more.

(** The arrows of the state machine, and staying in place. *)
Definition status_arrow (st st' : Status) : Prop :=
  st' = st ∨ (st = started ∧ st' = running)
  ∨ (st = running ∧ terminal st' = true).

(** What holds of every statement of a tracker, between the record
    before and the record after. *)
Record session_step_ok (s s' : Session) : Prop := mkSessionStepOk {
  step_id : session_id s' = session_id s;
  step_question : question s' = question s;
  step_log : extends (output_log s) (output_log s');
  step_status : status_arrow (status s) (status s');
  step_progress : progress s ≤ progress s'
                  ∨ (status s' = error ∧ progress s' = 0);
  step_result : result s' = result s ∨ result s = None
}.

(** What holds of a server as a whole. *)
Record system_ok (clk : Clock) (σ : System) : Prop := mkSystemOk {
  sys_nodup : NoDup (issued σ);
  sys_issued : ∀ sid, is_Some (session_of σ sid) → sid ∈ issued σ;
  sys_threads : ∀ t s, t ∈ threads σ →
                session_of σ (thread_sid t) = Some s →
                along clk session_ok session_step_ok (thread_code t) s
}.

(** What one step of the server may do to the entry of one id. *)
Inductive entry_step (clk : Clock)
  : option Session → option Session → Prop :=
| entry_same o : entry_step clk o o
| entry_deleted s : entry_step clk (Some s) None
| entry_created s :
    session_ok s → status s = started → output_log s = "" →
    entry_step clk None (Some s)
| entry_updated s s' :
    session_step_ok s s' → entry_step clk (Some s) (Some s').

End Lifecycle.

(** ** The requests of the provider client, written out *)

Module ProviderRequests.
Import Py WebOperations.

(** The request that [_make_api_request] sends (lines 11-19). *)
Definition request_of (key : option string) (url : string)
    (payload : pyval) : Request :=
  mkRequest url
    [("Authorization", "Bearer " +:+ default "None" key);
     ("Content-Type", "application/json")] payload.

(** The request that [serp_search] sends for one zone (lines 48-55). *)
Definition zone_request (key : option string)
    (base_url query zone : string) : Request :=
  request_of key api_url (payload_of zone base_url query).

End ProviderRequests.

(** ** web_operations.py, lines 71-188: snapshots and the two Reddit
       operations *)

Module RedditOperations.
Import Py WebOperations.

Definition TypeError (msg : string) : exn :=
  Exn "TypeError" true false msg.

(** A byte of the form 10xxxxxx, which goes on a character of a UTF-8
    text. *)
Definition is_continuation (c : ascii) : bool :=
  let n := nat_of_ascii c in ((128 <=? n) && (n <? 192))%nat.

Definition starts_with_continuation (s : string) : bool :=
  match s with
  | EmptyString => false
  | String c _ => is_continuation c
  end.

(** The characters of a [str], each as a [str] of its own: what a [for]
    loop over it sees. *)
Fixpoint code_points (s : string) : list string :=
  match s with
  | EmptyString => []
  | String c rest =>
      match code_points rest with
      | g :: gs =>
          if starts_with_continuation g then String c g :: gs
          else String c EmptyString :: g :: gs
      | [] => [String c EmptyString]
      end
  end.

(** What [requests.post] is called with when [params] is among the
    keyword arguments. *)
Record Call := mkCall {
  call_url : string;
  call_headers : list (string * string);
  call_params : pyval;
  call_json : pyval
}.

(** What the process has done so far. *)
Record Out := mkOut { printed : list string; calls : list Call }.

Definition say (line : string) (o : Out) : Out :=
  mkOut (printed o ++ [line]) (calls o).

Definition send (c : Call) (o : Out) : Out :=
  mkOut (printed o) (calls o ++ [c]).

Section Snapshots.
(** [os.getenv("BRIGHTDATA_API_KEY")]. *)
Variable BRIGHTDATA_API_KEY : option string.
(** The network: the reply to the n-th request sent from this module. *)
Variable requests_post : nat → Call → Reply.
(** [snapshot_operations] is not among the sources: its two functions
    are arbitrary here.  They get the snapshot id, may print and use
    the network, and return a value or raise. *)
Variable poll_snapshot_status : pyval → Out → Out * may_raise pyval.
Variable download_snapshot : pyval → Out → Out * may_raise pyval.
(** [str(v)], as an f-string formats a value. *)
Variable py_str : pyval → string.
(** The keys of a dict in the order of their insertion. *)
Variable dict_keys : gmap string pyval → list string.

(** [_make_api_request(url, params=params, json=data)], lines 10-32, as
    line 73 calls it. *)
Definition _make_api_request (url : string) (params data : pyval) (o : Out)
  : Out * pyval :=
  let api_key := default "None" BRIGHTDATA_API_KEY in
  let headers := [("Authorization", "Bearer " +:+ api_key);
                  ("Content-Type", "application/json")] in
  let c := mkCall url headers params data in
  let n := List.length (calls o) in
  let o := send c o in
  match requests_post n c with
  | Answers response =>
      let o :=
        if ok response then o
        else say ("API request failed: "
                    +:+ str_of_int (status_code response)
                    +:+ " - " +:+ text response) o in
      match http_error response with
      | Some e => (say ("API request failed: " +:+ e) o, PNone)
      | None =>
          match body response with
          | Json v => (o, v)
          | JsonRequestError e =>
              (say ("API request failed: " +:+ e) o, PNone)
          | JsonOtherError e => (say ("Unknown error: " +:+ e) o, PNone)
          end
      end
  | RequestException e => (say ("API request failed: " +:+ e) o, PNone)
  | OtherException e => (say ("Unknown error: " +:+ e) o, PNone)
  end.

(** [_trigger_and_download_snapshot], lines 71-90. *)
Definition _trigger_and_download_snapshot (trigger_url : string)
    (params data : pyval) (operation_name : string) (o : Out)
  : Out * may_raise pyval :=
  let o := say ("🔄 Triggering " +:+ operation_name +:+ " snapshot...") o in
  let '(o, trigger_result) := _make_api_request trigger_url params data o in
  if negb (truthy trigger_result) then
    (say ("❌ Failed to trigger " +:+ operation_name +:+ " snapshot") o,
     Ok PNone)
  else
    match py_get trigger_result "snapshot_id" PNone with
    | Raised e => (o, Raised e)
    | Ok snapshot_id =>
        if negb (truthy snapshot_id) then
          (say ("❌ No snapshot_id returned for " +:+ operation_name) o,
           Ok PNone)
        else
          let o := say ("⏳ Polling snapshot " +:+ py_str snapshot_id
                        +:+ " for " +:+ operation_name +:+ "...") o in
          match poll_snapshot_status snapshot_id o with
          | (o, Raised e) => (o, Raised e)
          | (o, Ok polled) =>
              if negb (truthy polled) then
                (say ("❌ Snapshot " +:+ py_str snapshot_id
                      +:+ " failed or timed out") o,
                 Ok PNone)
              else
                let o := say ("📥 Downloading snapshot "
                              +:+ py_str snapshot_id +:+ " for "
                              +:+ operation_name +:+ "...") o in
                download_snapshot snapshot_id o
          end
    end.

(** What a [for] loop over a value runs through. *)
Definition py_iter (v : pyval) : may_raise (list pyval) :=
  match v with
  | PList l => Ok l
  | PStr s => Ok (PStr <$> code_points s)
  | PDict d => Ok (PStr <$> dict_keys d)
  | PNone | PBool _ | PInt _ =>
      Raised (TypeError ("'" +:+ type_name v
                             +:+ "' object is not iterable"))
  end.

Definition trigger_url : string :=
  "https://api.brightdata.com/datasets/v3/trigger".

(** The dict of lines 96-101. *)
Definition search_params : pyval :=
  PDict (<["dataset_id" := PStr "gd_lvz8ah06191smkebj4"]>
         (<["include_errors" := PStr "true"]>
         (<["type" := PStr "discover_new"]>
         (<["discover_by" := PStr "keyword"]> ∅)))).

(** The list of lines 103-110. *)
Definition search_data (keyword date sort_by num_of_posts : pyval)
  : pyval :=
  PList [PDict (<["keyword" := keyword]>
                (<["date" := date]>
                (<["sort_by" := sort_by]>
                (<["num_of_posts" := num_of_posts]> ∅))))].

(** The dict of lines 127-135 for one post; [None] for a post that is
    skipped. *)
Definition parse_post (post : pyval) : option pyval :=
  match post with
  | PDict d =>
      Some (PDict (<["title" := default (PStr "") (d !! "title")]>
                   (<["url" := default (PStr "") (d !! "url")]> ∅)))
  | PStr s =>
      Some (PDict (<["title" := PStr s]> (<["url" := PStr ""]> ∅)))
  | PNone | PBool _ | PInt _ | PList _ => None
  end.

(** The loop of lines 124-143; nothing in its body raises, so its
    handler is never entered. *)
Fixpoint parse_posts (posts parsed_data : list pyval) (o : Out)
  : Out * list pyval :=
  match posts with
  | [] => (o, parsed_data)
  | post :: rest =>
      match parse_post post with
      | Some parsed_post =>
          parse_posts rest (parsed_data ++ [parsed_post]) o
      | None =>
          parse_posts rest parsed_data
            (say ("Warning: Unexpected post type <class '"
                  +:+ type_name post +:+ "'>, skipping") o)
      end
  end.

(** [len(v)], as line 146 and 188 take it of a list. *)
Definition py_len (l : list pyval) : pyval := PInt (Z.of_nat (List.length l)).

(** [reddit_search_api], lines 93-146. *)
Definition reddit_search_api (keyword date sort_by num_of_posts : pyval)
    (o : Out) : Out * may_raise pyval :=
  match _trigger_and_download_snapshot trigger_url search_params
          (search_data keyword date sort_by num_of_posts) "reddit" o with
  | (o, Raised e) => (o, Raised e)
  | (o, Ok raw_data) =>
      if negb (truthy raw_data) then
        (say "❌ No data returned from Reddit search" o, Ok PNone)
      else
        let o := say ("Debug: Raw data type: <class '"
                      +:+ type_name raw_data +:+ "'>") o in
        let sample :=
          match raw_data with
          | PList (_ :: _ as l) => PList (take 2 l)
          | _ => raw_data
          end in
        let o := say ("Debug: Raw data sample: " +:+ py_str sample) o in
        match py_iter raw_data with
        | Raised e => (o, Raised e)
        | Ok posts =>
            let '(o, parsed_data) := parse_posts posts [] o in
            (say ("✅ Parsed "
                  +:+ str_of_int (Z.of_nat (List.length parsed_data))
                  +:+ " Reddit posts") o,
             Ok (PDict (<["parsed_posts" := PList parsed_data]>
                        (<["total_found" := py_len parsed_data]> ∅))))
        end
  end.

(** The default values of the keyword arguments of line 93. *)
Definition default_date : pyval := PStr "All time".
Definition default_sort_by : pyval := PStr "Hot".
Definition default_num_of_posts : pyval := PInt 75.

(** The dict of lines 156-159. *)
Definition retrieval_params : pyval :=
  PDict (<["dataset_id" := PStr "gd_lvzdpsdlw09j6t702"]>
         (<["include_errors" := PStr "true"]> ∅)).

(** One element of the list of lines 161-169. *)
Definition retrieval_entry (days_back load_all_replies comment_limit
                              url : pyval) : pyval :=
  PDict (<["url" := url]>
         (<["days_back" := days_back]>
         (<["load_all_replies" := load_all_replies]>
         (<["comment_limit" := comment_limit]> ∅)))).

(** The dict of lines 180-184 for one comment. *)
Definition parse_comment (comment : pyval) : may_raise pyval :=
  match py_get comment "comment_id" PNone with
  | Raised e => Raised e
  | Ok comment_id =>
      match py_get comment "comment" PNone with
      | Raised e => Raised e
      | Ok content =>
          match py_get comment "date_posted" PNone with
          | Raised e => Raised e
          | Ok date =>
              Ok (PDict (<["comment_id" := comment_id]>
                         (<["content" := content]>
                         (<["date" := date]> ∅))))
          end
      end
  end.

(** The loop of lines 179-185: it stops at the first comment that
    raises. *)
Fixpoint parse_comments (comments parsed_comments : list pyval)
  : may_raise (list pyval) :=
  match comments with
  | [] => Ok parsed_comments
  | comment :: rest =>
      match parse_comment comment with
      | Raised e => Raised e
      | Ok parsed_comment =>
          parse_comments rest (parsed_comments ++ [parsed_comment])
      end
  end.

(** [reddit_post_retrieval], lines 149-188. *)
Definition reddit_post_retrieval (urls days_back load_all_replies
                                    comment_limit : pyval) (o : Out)
  : Out * may_raise pyval :=
  if negb (truthy urls) then
    (say "❌ No URLs provided for Reddit post retrieval" o, Ok PNone)
  else
    match py_iter urls with
    | Raised e => (o, Raised e)
    | Ok url_list =>
        let data :=
          PList (retrieval_entry days_back load_all_replies comment_limit
                   <$> url_list) in
        match _trigger_and_download_snapshot trigger_url retrieval_params
                data "reddit comments" o with
        | (o, Raised e) => (o, Raised e)
        | (o, Ok raw_data) =>
            if negb (truthy raw_data) then
              (say "❌ No comments data returned" o, Ok PNone)
            else
              match py_iter raw_data with
              | Raised e => (o, Raised e)
              | Ok comments =>
                  match parse_comments comments [] with
                  | Raised e => (o, Raised e)
                  | Ok parsed_comments =>
                      (say ("✅ Parsed "
                            +:+ str_of_int
                                  (Z.of_nat (List.length parsed_comments))
                            +:+ " Reddit comments") o,
                       Ok (PDict
                             (<["comments" := PList parsed_comments]>
                              (<["total_retrieved"
                                 := py_len parsed_comments]> ∅))))
                  end
              end
        end
    end.

(** The default values of the keyword arguments of line 149. *)
Definition default_days_back : pyval := PInt 10.
Definition default_load_all_replies : pyval := PBool false.
Definition default_comment_limit : pyval := PStr "".

End Snapshots.
End RedditOperations.

(** ** The requests and the records of the Reddit operations, written
       out *)

Module SnapshotRequests.
Import Py WebOperations RedditOperations.

(** The request that [_make_api_request] sends for a trigger. *)
Definition call_of (key : option string) (url : string)
    (params data : pyval) : Call :=
  mkCall url
    [("Authorization", "Bearer " +:+ default "None" key);
     ("Content-Type", "application/json")] params data.

(** The value that the trigger gets from the network, sent after what
    [o] holds. *)
Definition trigger_value (key : option string)
    (net : nat → Call → Reply) (url : string) (params data : pyval)
    (o : Out) : pyval :=
  reply_value (net (List.length (calls o)) (call_of key url params data)).

(** What the process has done once the trigger has its reply. *)
Definition after_trigger (key : option string)
    (net : nat → Call → Reply) (url : string) (params data : pyval)
    (name : string) (o : Out) : Out :=
  (RedditOperations._make_api_request key net url params data
     (say ("🔄 Triggering " +:+ name +:+ " snapshot...") o)).1.

Definition is_dict (v : pyval) : bool :=
  match v with
  | PDict _ => true
  | _ => false
  end.

(** The three fields that line 180-184 take from a comment that is a
    dict. *)
Definition comment_fields (comment : pyval) : pyval :=
  match comment with
  | PDict d =>
      PDict (<["comment_id" := default PNone (d !! "comment_id")]>
             (<["content" := default PNone (d !! "comment")]>
             (<["date" := default PNone (d !! "date_posted")]> ∅)))
  | _ => PNone
  end.

(** A poll that finds the snapshot ready, a download that hands out a
    fixed payload, and a way of printing values: enough to run the
    Reddit operations. *)
Definition ready : pyval → Out → Out * may_raise pyval :=
  fun _ o => (o, Ok (PBool true)).

Definition never_ready : pyval → Out → Out * may_raise pyval :=
  fun _ o => (o, Ok (PBool false)).

Definition hands_out (payload : pyval)
  : pyval → Out → Out * may_raise pyval :=
  fun _ o => (o, Ok payload).

Definition show (v : pyval) : string :=
  match v with
  | PStr s => s
  | _ => "..."
  end.

Definition keys_of (d : gmap string pyval) : list string :=
  (map_to_list d).*1.

(** A network that accepts every trigger with the snapshot id "s_1". *)
Definition accepting : nat → Call → Reply :=
  fun _ _ =>
    Answers (mkHttpResponse 200 "{...}" None
               (Json (PDict (<["snapshot_id" := PStr "s_1"]> ∅)))).

(** A network that refuses every request. *)
Definition refusing : nat → Call → Reply :=
  fun _ _ => RequestException "connection refused".

Definition silent : Out := mkOut [] [].

(** Two posts, a number between them. *)
Definition some_posts : list pyval :=
  [PDict (<["title" := PStr "First"]> (<["url" := PStr "u1"]> ∅));
   PInt 7;
   PDict (<["title" := PStr "Second"]> ∅)].

(** What becomes of [some_posts]. *)
Definition parsed_some_posts : pyval :=
  PDict (<["parsed_posts"
           := PList [PDict (<["title" := PStr "First"]>
                            (<["url" := PStr "u1"]> ∅));
                     PDict (<["title" := PStr "Second"]>
                            (<["url" := PStr ""]> ∅))]]>
         (<["total_found" := PInt 2]> ∅)).

(** One comment with a text and nothing else. *)
Definition some_comments : list pyval :=
  [PDict (<["comment" := PStr "nice"]> ∅)].

End SnapshotRequests.

(** ** A small server, for running the definitions *)

Module Demo.
Import Py ApiServer.

Definition clock : Clock :=
  mkClock (fun _ => "12:00:00") (fun _ => "2025-01-01T12:00:00").

(** A pipeline that answers after a minute. *)
Definition answering : Behaviour :=
  Returns 60 (Some (mkState (Some "Buy the small one."))).

(** A pipeline that fails after three seconds. *)
Definition failing (why : string) : Behaviour :=
  Fails 3 (Exn "RuntimeError" true false why).

(** A pipeline that calls [sys.exit(1)] after three seconds. *)
Definition exiting : Behaviour := Fails 3 (SystemExit "1").

(** A pipeline that raises, after three seconds, an exception of the
    class of [concurrent.futures.TimeoutError]. *)
Definition raising_timeout : Behaviour :=
  Fails 3 (Exn "TimeoutError" true true "The read operation timed out").

(** The server after one submission. *)
Definition submitted (b : Behaviour) : System :=
  (start_search clock "job-1" b "best electric cars 2025" (boot 0)).1.

(** ... and after [n] statements of its tracker. *)
Definition after (n : nat) (b : Behaviour) : System :=
  default (submitted b) (tracker_steps clock n 0 (submitted b)).

(** A store with one record that is not the result of a submission. *)
Definition one_record (sid : string) : World :=
  mkWorld {[ sid := new_session sid "q" "t0" "t1" ]} 0 [].

(** A store with two records. *)
Definition two_records : World :=
  mkWorld (<["job-2" := new_session "job-2" "q2" "t2" "t3"]>
             {[ "job-1" := new_session "job-1" "q" "t0" "t1" ]}) 0 [].

(** An id with an apostrophe and a backslash in it. *)
Definition odd_id : string :=
  String "j" (String apostrophe (String backslash "b")).

(** A network that gives the same reply to every request. *)
Definition always (r : WebOperations.Reply)
  : nat → WebOperations.Request → WebOperations.Reply :=
  fun _ _ => r.

(** 200 OK with the body [[1]], a JSON array. *)
Definition list_reply : WebOperations.Reply :=
  WebOperations.Answers
    (WebOperations.mkHttpResponse 200 "[1]" None
       (WebOperations.Json (PList [PInt 1]))).

(** 200 OK with a JSON object that has results, no knowledge block and
    a field of its own. *)
Definition object_body : gmap string pyval :=
  <["organic" := PList [PStr "hit"]]> (<["pagination" := PInt 2]> ∅).

Definition object_response : WebOperations.HttpResponse :=
  WebOperations.mkHttpResponse 200 "{...}" None
    (WebOperations.Json (PDict object_body)).

Definition object_reply : WebOperations.Reply :=
  WebOperations.Answers object_response.

(** 200 OK with the body [{}]. *)
Definition empty_object_response : WebOperations.HttpResponse :=
  WebOperations.mkHttpResponse 200 "{}" None
    (WebOperations.Json (PDict ∅)).

Definition quiet : WebOperations.IO := WebOperations.mkIO [] [].

End Demo.

(** * Properties *)

(** ** Strings *)

Module StringFacts.

(** [String.append] is declared [simpl never]; this unfolds one step. *)
Ltac app_step := cbv [String.append]; fold String.append.

Lemma append_assoc (a b c : string) : (a +:+ b) +:+ c = a +:+ (b +:+ c).
Proof. induction a as [|x a IH]; app_step; [reflexivity | by rewrite IH]. Qed.

Lemma append_nil_r (a : string) : a +:+ "" = a.
Proof. induction a as [|x a IH]; app_step; [reflexivity | by rewrite IH]. Qed.

Lemma length_append (a b : string) :
  String.length (a +:+ b) = (String.length a + String.length b)%nat.
Proof.
  induction a as [|x a IH]; app_step; simpl; [reflexivity | by rewrite IH].
Qed.

Lemma prefix_append (a b : string) : String.prefix a (a +:+ b) = true.
Proof.
  induction a as [|x a IH]; app_step; simpl.
  - by destruct b.
  - destruct (ascii_dec x x) as [_|Hne]; [exact IH | by destruct Hne].
Qed.

End StringFacts.

(** ** The tracker body on the record of its session *)

Module LifecycleFacts.
Import Py ApiServer Lifecycle StringFacts.

Lemma extends_refl l : extends l l.
Proof. exists "". by rewrite append_nil_r. Qed.

Lemma extends_trans l1 l2 l3 : extends l1 l2 → extends l2 l3 → extends l1 l3.
Proof.
  intros [m1 ->] [m2 ->]. exists (m1 +:+ m2). apply append_assoc.
Qed.

Lemma extends_append l more : extends l (l +:+ more).
Proof. by exists more. Qed.

Lemma extends_length l l' :
  extends l l' → (String.length l ≤ String.length l')%nat.
Proof. intros [m ->]. rewrite length_append. lia. Qed.

Lemma extends_prefix l l' : extends l l' → String.prefix l l' = true.
Proof. intros [m ->]. apply prefix_append. Qed.

Lemma session_step_ok_refl s : session_step_ok s s.
Proof.
  split; auto using extends_refl; [by left | left; lia].
Qed.

(** *** Rules for [wp] *)

Section Rules.
Context (clk : Clock) (J : Session → Prop) (G : Session → Session → Prop).

Lemma wp_inv p Q s : wp clk J G p Q s → J s.
Proof. destruct p; simpl; tauto. Qed.

Lemma wp_mono p (Q Q' : ending → Session → Prop) s :
  (∀ r s', Q r s' → Q' r s') → wp clk J G p Q s → wp clk J G p Q' s.
Proof.
  intros HQ. revert s.
  induction p as [|e| |a k IHk h IHh]; simpl; intros s [HJ Hp];
    (split; [exact HJ|]); auto.
  intros n. destruct (Hp n) as [HG Hk]. auto.
Qed.

Lemma wp_seq p q Q s :
  wp clk J G p
    (fun r s' => match r with
                 | Finished => wp clk J G q Q s'
                 | Escaped _ | Blocked => Q r s'
                 end) s →
  wp clk J G (seq p q) Q s.
Proof.
  revert s.
  induction p as [|e| |a k IHk h IHh]; simpl; intros s [HJ Hp].
  - exact Hp.
  - by split.
  - by split.
  - split; [exact HJ|]. intros n. destruct (Hp n) as [HG Hk]. auto.
Qed.

(** An exception of the class is handed to the handler, any other one
    goes on up. *)
Lemma wp_try_catch catches p h Q s :
  wp clk J G p
    (fun r s' => match r with
                 | Escaped e =>
                     if catches e : bool then wp clk J G (h e) Q s'
                     else Q r s'
                 | Finished | Blocked => Q r s'
                 end) s →
  wp clk J G (try_catch catches p h) Q s.
Proof.
  revert s.
  induction p as [|e| |a k IHk h0 IHh]; simpl; intros s [HJ Hp].
  - by split.
  - destruct (catches e); [exact Hp | by split].
  - by split.
  - split; [exact HJ|]. intros n. destruct (Hp n) as [HG Hk]. auto.
Qed.

(** Whatever the way [p] would end, the wait takes its place. *)
Lemma wp_never_leaves p Q s :
  wp clk J G p (fun _ s' => Q Blocked s') s →
  wp clk J G (never_leaves p) Q s.
Proof.
  revert s.
  induction p as [|e| |a k IHk h IHh]; simpl; intros s [HJ Hp];
    (split; [exact HJ|]); auto.
  intros n. destruct (Hp n) as [HG Hk]. auto.
Qed.

Lemma wp_with_executor graph_invoke body Q s :
  (∀ r s', Q r s' → Q Blocked s') →
  wp clk J G body Q s →
  wp clk J G (with_executor graph_invoke body) Q s.
Proof.
  intros HQ Hbody. destruct graph_invoke; simpl; [done|done|].
  apply wp_never_leaves. revert Hbody. apply wp_mono. exact HQ.
Qed.

(** One statement, between two assertions on the record. *)
Lemma wp_atomic (P P' : Session → Prop) a Q s :
  P s → (∀ s, P s → J s) → (∀ s, P' s → J s) →
  (∀ n s, P s → G s (apply_stmt clk a n s) ∧ P' (apply_stmt clk a n s)) →
  (∀ s', P' s' → Q Finished s') →
  wp clk J G (atomic a) Q s.
Proof.
  intros HP HJ HJ' Hstep HQ. simpl. split; [auto|].
  intros n. destruct (Hstep n s HP) as [HG HP']. auto.
Qed.

Lemma wp_step (P P' : Session → Prop) a q Q s :
  P s → (∀ s, P s → J s) →
  (∀ n s, P s → G s (apply_stmt clk a n s) ∧ P' (apply_stmt clk a n s)) →
  (∀ s', P' s' → wp clk J G q Q s') →
  wp clk J G (atomic a ;> q) Q s.
Proof.
  intros HP HJ Hstep Hq. simpl. split; [auto|].
  intros n. destruct (Hstep n s HP) as [HG HP']. auto.
Qed.

Lemma along_next a k h n s :
  along clk J G (Do a k h) s → along clk J G k (apply_stmt clk a n s).
Proof. intros [_ H]. apply H. Qed.

Lemma along_guarantee a k h n s :
  along clk J G (Do a k h) s → G s (apply_stmt clk a n s).
Proof. intros [_ H]. apply H. Qed.

End Rules.

(** *** What each statement does to a live or an ended record *)

Section Statements.
Context (clk : Clock).

Lemma live_ok st b s : live st b s → session_ok s.
Proof. by intros [? _]. Qed.

Lemma ended_ok s : ended s → session_ok s.
Proof. by intros [? _]. Qed.

(** Closes the fields of [session_ok] and [session_step_ok] once the
    facts on the record before are among the hypotheses. *)
Ltac fields :=
  split; simpl in *;
  repeat match goal with
         | H : result _ = None |- _ => rewrite ?H in *; clear H
         | H : status _ = _ |- _ => rewrite ?H in *; clear H
         | H : terminal _ = _ |- _ => rewrite ?H in *; clear H
         end;
  simpl in *;
  auto using extends_refl, extends_append;
  try done; try lia;
  try (left; done); try (left; lia).

Lemma new_session_live sid q created updated :
  live started 0 (new_session sid q created updated).
Proof. split; [fields | repeat split; simpl; lia]. Qed.

Lemma set_running_live b n s :
  live started b s →
  session_step_ok s (apply_stmt clk SetRunning n s)
  ∧ live running b (apply_stmt clk SetRunning n s).
Proof.
  intros ([Hres Hrange Hfin Hlive] & Hst & _ & Hnone & Hb). split.
  - fields. right; left; done.
  - split; [fields | repeat split; simpl; auto].
Qed.

Lemma log_live st b msg n s :
  live st b s →
  session_step_ok s (apply_stmt clk (Log msg) n s)
  ∧ live st b (apply_stmt clk (Log msg) n s).
Proof.
  intros ([Hres Hrange Hfin Hlive] & Hst & Hnt & Hnone & Hb). split.
  - fields.
  - split; [by split | repeat split; simpl; auto].
Qed.

Lemma progress_live st b p step msg n s :
  live st b s → b ≤ p → 0 ≤ p ≤ 10 →
  session_step_ok s (apply_stmt clk (Progress p step msg) n s)
  ∧ live st p (apply_stmt clk (Progress p step msg) n s).
Proof.
  intros ([Hres Hrange Hfin Hlive] & Hst & Hnt & Hnone & Hb) Hbp Hp.
  split.
  - fields.
  - split; [|repeat split; simpl; auto; lia].
    split; simpl; auto; try lia.
    rewrite Hst, Hnt. done.
Qed.

Lemma error_log_live st b msg n s :
  live st b s →
  session_step_ok s (apply_stmt clk (ErrorLog msg) n s)
  ∧ live st b (apply_stmt clk (ErrorLog msg) n s).
Proof. intros H. split; [apply session_step_ok_refl | exact H]. Qed.

Lemma outcome_ended b st step msg res n s :
  live running b s → terminal st = true → final_result st res →
  session_step_ok s
    (apply_stmt clk (Outcome st (final_progress st) step msg res) n s)
  ∧ ended
      (apply_stmt clk (Outcome st (final_progress st) step msg res) n s).
Proof.
  intros ([Hres Hrange Hfin Hlive] & Hst & _ & Hnone & Hb) Hterm Hfr.
  assert (progress s ≤ 10) as H10 by (apply Hlive; by rewrite Hst).
  split.
  - split; simpl; auto using extends_refl.
    + right; right; done.
    + destruct st; simpl in *; try done; try (left; lia); by right.
  - split; [|exact Hterm].
    split; simpl; auto; try (rewrite Hterm; done).
    destruct st; simpl; lia.
Qed.

Lemma log_ended msg n s :
  ended s →
  session_step_ok s (apply_stmt clk (Log msg) n s)
  ∧ ended (apply_stmt clk (Log msg) n s).
Proof.
  intros ([Hres Hrange Hfin Hlive] & Hterm). split.
  - split; simpl; auto using extends_append; [by left | left; lia].
  - split; [by split | exact Hterm].
Qed.

End Statements.

(** *** The whole body *)

Lemma answer_of_nonempty fs a : answer_of fs = Some a → a ≠ "".
Proof.
  unfold answer_of. destruct fs as [[[x|]]|]; try done.
  destruct x; simpl; [done|]. intros [= <-]. done.
Qed.

Section Body.
Context (clk : Clock).

Abbreviation WP := (wp clk session_ok session_step_ok).

(** One statement of a live job, the next assertion being [P']. *)
Ltac live_step P' lem :=
  eapply (wp_step clk _ _ (live _ _) P');
  [ eassumption
  | apply live_ok
  | intros ? ? ?; eapply lem; eauto; simpl; auto; lia
  | clear; intros s Hs ].

Ltac last_log :=
  eapply (wp_atomic clk _ _ ended ended);
  [ eassumption
  | apply ended_ok
  | apply ended_ok
  | intros ? ? ?; by apply log_ended
  | done ].

Lemma handler_wp e b s :
  live running b s →
  WP (atomic (ErrorLog ("Error in research process: " +:+ exn_str e)) ;>
      atomic (Log ("❌ Research failed: " +:+ exn_str e)) ;>
      atomic (Outcome error 0 "error"
                ("Error occurred: " +:+ exn_str e)
                ("Research failed due to an error: " +:+ exn_str e)))
     (fun _ _ => True) s.
Proof.
  intros Hs.
  live_step (live running b) error_log_live.
  live_step (live running b) log_live.
  eapply (wp_atomic clk _ _ (live running b) ended);
    [ eassumption | apply live_ok | apply ended_ok | | done ].
  intros n s0 Hs0.
  apply (outcome_ended clk b error "error" _ _ n s0 Hs0); [done|].
  by eexists.
Qed.

Lemma run_live graph_invoke question0 s :
  live started 0 s →
  along clk session_ok session_step_ok
    (run_research_with_tracking graph_invoke question0) s.
Proof.
  intros Hs. unfold along, run_research_with_tracking, try_except.
  apply wp_try_catch.
  live_step (live running 0) set_running_live.
  live_step (live running 5) progress_live.
  live_step (live running 5) log_live.
  apply wp_with_executor; [done|].
  live_step (live running 5) log_live.
  live_step (live running 10) progress_live.
  unfold try_except_timeout. apply wp_try_catch.
  assert (session_ok s) as Hok by (by eapply live_ok).
  match goal with
  | |- wp _ _ _ _ (fun r s' => match r with
                              | Escaped e => if _ then wp _ _ _ _ ?Q s'
                                             else _
                              | _ => _
                              end) _ =>
      assert (WP (atomic (Outcome timeout 75 "timeout"
                            "Research timed out after 7 minutes"
                            timeout_result) ;>
                  atomic (Log "⏰ Research timed out after 7 minutes"))
                Q s) as Htimeout
  end.
  { eapply (wp_step clk _ _ (live running 10) ended);
      [ eassumption | apply live_ok | | clear; intros s Hs ].
    - intros n s0 Hs0.
      by apply (outcome_ended clk 10 timeout "timeout" _ _ n s0 Hs0).
    - last_log. }
  destruct (future_result 420 graph_invoke) as [fs|e].
  - destruct (answer_of fs) as [answer|] eqn:Hanswer.
    + eapply (wp_step clk _ _ (live running 10) ended);
        [ eassumption | apply live_ok | | clear; intros s Hs ].
      * intros n s0 Hs0.
        apply (outcome_ended clk 10 completed "completed" _ _ n s0 Hs0);
          [done|].
        by eapply answer_of_nonempty.
      * last_log.
    + eapply (wp_step clk _ _ (live running 10) ended);
        [ eassumption | apply live_ok | | clear; intros s Hs ].
      * intros n s0 Hs0.
        by apply (outcome_ended clk 10 partial_success
                    "completed_with_issues" _ _ n s0 Hs0).
      * last_log.
  - simpl. split; [exact Hok|].
    destruct (exn_is_timeout e); [exact Htimeout|].
    destruct (exn_is_exception e); [|done].
    by eapply handler_wp.
Qed.

Abbreviation WP0 := (wp clk (fun _ => True) (fun _ _ => True)).

Lemma outcome_has st p step msg res n s :
  has_outcome st p msg res
    (apply_stmt clk (Outcome st p step msg res) n s).
Proof. by repeat split. Qed.

Lemma log_has st p msg res m n s :
  has_outcome st p msg res s →
  has_outcome st p msg res (apply_stmt clk (Log m) n s).
Proof. intros (? & ? & ? & ?). by repeat split. Qed.

(** A way out: the [dict.update] and the line logged after it. *)
Lemma way_out_wp st p step msg res m (Q : ending → Session → Prop) s :
  (∀ s', has_outcome st p msg res s' → Q Finished s') →
  WP0 (atomic (Outcome st p step msg res) ;> atomic (Log m)) Q s.
Proof.
  intros HQ.
  eapply (wp_step clk _ _ (fun _ => True) (has_outcome st p msg res));
    [ done | done | intros; split; [done | apply outcome_has] | ].
  intros s1 H1.
  eapply (wp_atomic clk _ _ (has_outcome st p msg res)
            (has_outcome st p msg res));
    [ done | done | done | intros; split; [done | by apply log_has]
    | exact HQ ].
Qed.

(** The handler of [except Exception]: two lines logged, then the
    [dict.update]. *)
Lemma handler_out_wp e (Q : ending → Session → Prop) s :
  (∀ s', has_outcome error 0 ("Error occurred: " +:+ exn_str e)
           (error_result (exn_str e)) s' → Q Finished s') →
  WP0 (atomic (ErrorLog ("Error in research process: " +:+ exn_str e)) ;>
       atomic (Log ("❌ Research failed: " +:+ exn_str e)) ;>
       atomic (Outcome error 0 "error"
                 ("Error occurred: " +:+ exn_str e)
                 ("Research failed due to an error: " +:+ exn_str e)))
      Q s.
Proof.
  intros HQ.
  do 2 (eapply (wp_step clk _ _ (fun _ => True) (fun _ => True));
        [ done | done | done | clear s; intros s _ ]).
  eapply (wp_atomic clk _ _ (fun _ => True)
            (has_outcome error 0 ("Error occurred: " +:+ exn_str e)
               (error_result (exn_str e))));
    [ done | done | done | | exact HQ ].
  intros n s0 _. split; [done|]. apply outcome_has.
Qed.

(** The first statements leave the job running, at progress 10. *)
Lemma running_at_10 st n s :
  status s = running →
  status (apply_stmt clk (Progress 10 st "Running parallel searches...")
            n s) = running
  ∧ progress (apply_stmt clk
                (Progress 10 st "Running parallel searches...") n s) = 10.
Proof. done. Qed.

(** The body ends as [run_ending] says, on the way out that belongs to
    the answer of [future.result]. *)
Lemma run_classified graph_invoke question0 s :
  WP0 (run_research_with_tracking graph_invoke question0)
    (fun r s' =>
       r = run_ending graph_invoke
       ∧ classified (future_result 420 graph_invoke) s') s.
Proof.
  unfold run_research_with_tracking, try_except.
  apply wp_try_catch.
  eapply (wp_step clk _ _ (fun _ => True) (fun s => status s = running));
    [ done | done | done | clear s; intros s Hs ].
  do 2 (eapply (wp_step clk _ _ (fun s => status s = running)
                  (fun s => status s = running));
        [ done | done | done | clear s Hs; intros s Hs ]).
  assert (∀ Q s0, status s0 = running →
    (∀ s', status s' = running ∧ progress s' = 10 →
           WP0 (try_except_timeout
                  (match future_result 420 graph_invoke with
                   | Ok final_state =>
                       match answer_of final_state with
                       | Some answer =>
                           atomic (Outcome completed 100 "completed"
                                     "Research completed successfully!"
                                     answer) ;>
                           atomic (Log "🎉 Research completed successfully!")
                       | None =>
                           atomic (Outcome partial_success 90
                                     "completed_with_issues"
                                     "Research completed but with some issues"
                                     partial_result) ;>
                           atomic (Log "⚠️ Research completed with some issues")
                       end
                   | Raised e => Raise e
                   end)
                  (atomic (Outcome timeout 75 "timeout"
                             "Research timed out after 7 minutes"
                             timeout_result) ;>
                   atomic (Log "⏰ Research timed out after 7 minutes")))
             Q s') →
    WP0 (atomic (Log "🔄 Starting parallel research process...") ;>
         atomic (Progress 10 "research_started"
                   "Running parallel searches...") ;>
         try_except_timeout
           (match future_result 420 graph_invoke with
            | Ok final_state =>
                match answer_of final_state with
                | Some answer =>
                    atomic (Outcome completed 100 "completed"
                              "Research completed successfully!"
                              answer) ;>
                    atomic (Log "🎉 Research completed successfully!")
                | None =>
                    atomic (Outcome partial_success 90
                              "completed_with_issues"
                              "Research completed but with some issues"
                              partial_result) ;>
                    atomic (Log "⚠️ Research completed with some issues")
                end
            | Raised e => Raise e
            end)
           (atomic (Outcome timeout 75 "timeout"
                      "Research timed out after 7 minutes"
                      timeout_result) ;>
            atomic (Log "⏰ Research timed out after 7 minutes")))
      Q s0) as Hworker.
  { clear s Hs. intros Q s Hs HQ.
    eapply (wp_step clk _ _ (fun s => status s = running)
              (fun s => status s = running));
      [ done | done | done | clear s Hs; intros s Hs ].
    eapply (wp_step clk _ _ (fun s => status s = running)
              (fun s => status s = running ∧ progress s = 10));
      [ done | done | | exact HQ ].
    intros n s0 Hs0. split; [done|]. by apply running_at_10. }
  destruct graph_invoke as [d fs|d e|]; unfold with_executor.
  - apply Hworker; [exact Hs|]. clear s Hs. intros s Hs.
    unfold try_except_timeout. apply wp_try_catch.
    unfold run_ending.
    destruct (future_result 420 (Returns d fs)) as [fs'|e] eqn:Hfr;
      simpl classified.
    + destruct (answer_of fs') as [answer|]; by apply way_out_wp.
    + split; [done|]. cbv beta iota.
      destruct (exn_is_timeout e); [by apply way_out_wp|].
      destruct (exn_is_exception e); [by apply handler_out_wp | done].
  - apply Hworker; [exact Hs|]. clear s Hs. intros s Hs.
    unfold try_except_timeout. apply wp_try_catch.
    unfold run_ending.
    destruct (future_result 420 (Fails d e)) as [fs'|e'] eqn:Hfr;
      simpl classified.
    + destruct (answer_of fs') as [answer|]; by apply way_out_wp.
    + split; [done|]. cbv beta iota.
      destruct (exn_is_timeout e'); [by apply way_out_wp|].
      destruct (exn_is_exception e'); [by apply handler_out_wp | done].
  - apply wp_never_leaves. apply Hworker; [exact Hs|].
    clear s Hs. intros s Hs.
    unfold try_except_timeout. apply wp_try_catch.
    split; [done|]. cbv beta iota. by apply way_out_wp.
Qed.

Lemma run_along graph_invoke question0 sid created updated :
  along clk session_ok session_step_ok
    (run_research_with_tracking graph_invoke question0)
    (new_session sid question0 created updated).
Proof. apply run_live, new_session_live. Qed.

End Body.

End LifecycleFacts.

(** ** Statements and handlers on the store *)

Module StoreFacts.
Import Py ApiServer Lifecycle LifecycleFacts.

Section Store.
Context (clk : Clock).

Lemma log_to_session_present sid msg w s :
  search_sessions w !! sid = Some s →
  search_sessions (log_to_session clk sid msg w)
  = <[sid := apply_stmt clk (Log msg) (now_calls w) s]>
      (search_sessions w)
  ∧ now_calls (log_to_session clk sid msg w) = S (now_calls w).
Proof. intros H. unfold log_to_session. rewrite H. done. Qed.

Lemma log_to_session_absent sid msg w :
  search_sessions w !! sid = None → log_to_session clk sid msg w = w.
Proof. intros H. unfold log_to_session. by rewrite H. Qed.

Lemma update_session_progress_absent sid p step msg w :
  search_sessions w !! sid = None →
  update_session_progress clk sid p step msg w = w.
Proof. intros H. unfold update_session_progress. by rewrite H. Qed.

(** With its record in the store a statement does not raise, and it
    changes that record alone. *)
Lemma perform_present sid a w s :
  search_sessions w !! sid = Some s →
  ∃ w', perform clk sid a w = (w', Ok tt)
        ∧ search_sessions w'
          = <[sid := apply_stmt clk a (now_calls w) s]>
              (search_sessions w).
Proof.
  intros H. destruct a as [|p step msg|msg|st p step msg res|msg];
    simpl.
  - rewrite H. eexists; split; [reflexivity|]. done.
  - unfold update_session_progress. rewrite H.
    eexists; split; [reflexivity|].
    match goal with
    | |- search_sessions (log_to_session _ _ ?m ?w0) = _ =>
        destruct (log_to_session_present sid m w0
                    (set_progress p step msg
                       (isoformat clk (now_calls w)) s)) as [-> _]
    end.
    + simpl. apply lookup_insert_eq.
    + simpl. by rewrite insert_insert_eq.
  - eexists; split; [reflexivity|].
    by destruct (log_to_session_present sid msg w s H) as [-> _].
  - rewrite H. eexists; split; [reflexivity|]. done.
  - eexists; split; [reflexivity|]. simpl. by rewrite insert_id.
Qed.

(** Without its record a statement leaves the store as it is, and
    raises [KeyError] when it subscripts the store untested. *)
Lemma perform_absent sid a w :
  search_sessions w !! sid = None →
  ∃ w', perform clk sid a w
        = (w', if raises_when_gone a then Raised (KeyError sid)
               else Ok tt)
        ∧ search_sessions w' = search_sessions w.
Proof.
  intros H. destruct a as [|p step msg|msg|st p step msg res|msg];
    simpl; rewrite ?H, ?update_session_progress_absent,
             ?log_to_session_absent by done;
    eexists; split; reflexivity.
Qed.

(** Run as far as it goes on a stored record, a program goes where
    [wp] says. *)
Lemma exec_wp J G sid p Q w s :
  search_sessions w !! sid = Some s →
  wp clk J G p Q s →
  ∃ w' s' r,
    exec clk sid p w = (w', r)
    ∧ search_sessions w' !! sid = Some s' ∧ Q r s'.
Proof.
  revert w s. induction p as [|e| |a k IHk h IHh]; intros w s Hs Hwp.
  - exists w, s, Finished. simpl in *. tauto.
  - exists w, s, (Escaped e). simpl in *. tauto.
  - exists w, s, Blocked. simpl in *. tauto.
  - destruct Hwp as [_ Hwp].
    destruct (Hwp (now_calls w)) as [_ Hk].
    destruct (perform_present sid a w s Hs) as (w1 & Hpf & Hw1).
    simpl. rewrite Hpf. eapply IHk; [|exact Hk].
    rewrite Hw1. apply lookup_insert_eq.
Qed.

(** A run is the run of what is left after its first statement. *)
Lemma step1_exec sid p w w' p' :
  step1 clk sid p w = Some (w', p') →
  exec clk sid p w = exec clk sid p' w'.
Proof.
  destruct p as [|e| |a k h]; [done|done|done|]. unfold step1. simpl.
  destruct (perform clk sid a w) as [w1 [u|e]]; by intros [= <- <-].
Qed.

(** Either way the records of the other ids stay. *)
Lemma perform_other sid a w sid' :
  sid' ≠ sid →
  search_sessions (perform clk sid a w).1 !! sid'
  = search_sessions w !! sid'.
Proof.
  intros Hne. destruct (search_sessions w !! sid) as [s|] eqn:H.
  - destruct (perform_present sid a w s H) as (w' & -> & Hw').
    simpl. rewrite Hw'. by rewrite lookup_insert_ne.
  - destruct (perform_absent sid a w H) as (w' & -> & Hw').
    simpl. by rewrite Hw'.
Qed.

End Store.
End StoreFacts.

(** ** The server as a whole *)

Module ServerFacts.
Import Py ApiServer Lifecycle LifecycleFacts StoreFacts.

Section Server.
Context (clk : Clock).

Lemma step1_do sid p w w' p' :
  step1 clk sid p w = Some (w', p') →
  ∃ a k h, p = Do a k h
           ∧ w' = (perform clk sid a w).1
           ∧ p' = match (perform clk sid a w).2 with
                  | Ok _ => k
                  | Raised e => h e
                  end.
Proof.
  destruct p as [|e| |a k h]; [done|done|done|]. unfold step1.
  destruct (perform clk sid a w) as [w1 [u|e]] eqn:E; intros [= <- <-];
    exists a, k, h; rewrite E; repeat split; reflexivity.
Qed.

Lemma issued_insert (l : list Thread) i t p' :
  l !! i = Some t →
  thread_sid <$> <[i := mkThread (thread_sid t) p']> l = thread_sid <$> l.
Proof.
  intros H. rewrite list_fmap_insert. simpl.
  apply list_insert_id. by rewrite list_lookup_fmap, H.
Qed.

Lemma issued_step σ σ' sid :
  sys_step clk σ σ' → sid ∈ issued σ → sid ∈ issued σ'.
Proof.
  intros Hstep Hin. destruct Hstep as [σ u b q Hfresh|σ d|σ i t w' p' Ht Hs|σ];
    unfold issued in *; simpl.
  - rewrite fmap_app. apply elem_of_app. by left.
  - exact Hin.
  - by rewrite (issued_insert _ _ _ _ Ht).
  - exact Hin.
Qed.

Lemma system_ok_boot n : system_ok clk (boot n).
Proof.
  split; unfold issued, session_of; simpl.
  - constructor.
  - intros sid [s Hs]. by rewrite lookup_empty in Hs.
  - intros t s Ht. by apply elem_of_nil in Ht.
Qed.

(** What a step does to the entry of each id. *)
Lemma sys_step_entry σ σ' sid :
  system_ok clk σ → sys_step clk σ σ' →
  entry_step clk (session_of σ sid) (session_of σ' sid).
Proof.
  intros [Hnd Hiss Hth] Hstep.
  destruct Hstep as [σ u b q Hfresh|σ d|σ i t w' p' Ht Hs|σ];
    unfold session_of in *; simpl.
  - destruct (decide (u = sid)) as [->|Hne].
    + rewrite lookup_insert_eq.
      destruct (search_sessions (world σ) !! sid) as [s|] eqn:Hsid.
      { destruct Hfresh. apply Hiss. by exists s. }
      apply entry_created; [|done..].
      eapply live_ok, new_session_live.
    + rewrite lookup_insert_ne by done. constructor.
  - unfold delete_session.
    destruct (search_sessions (world σ) !! d) as [s|] eqn:Hd; simpl;
      [|constructor].
    destruct (decide (d = sid)) as [->|Hne].
    + rewrite lookup_delete_eq, Hd. constructor.
    + rewrite lookup_delete_ne by done. constructor.
  - apply step1_do in Hs as (a & k & h & Hp & -> & ->).
    destruct (decide (sid = thread_sid t)) as [->|Hne];
      [|rewrite perform_other by done; constructor].
    destruct (search_sessions (world σ) !! thread_sid t) as [s|] eqn:Hsid.
    + destruct (perform_present clk _ a _ s Hsid) as (w' & -> & Hw').
      simpl. rewrite Hw', lookup_insert_eq. apply entry_updated.
      assert (t ∈ threads σ) as Hin
          by (apply list_elem_of_lookup; eauto).
      specialize (Hth t s Hin Hsid). rewrite Hp in Hth.
      eapply along_guarantee, Hth.
    + destruct (perform_absent clk _ a _ Hsid) as (w' & -> & Hw').
      simpl. rewrite Hw', Hsid. constructor.
  - constructor.
Qed.

Lemma system_ok_step σ σ' :
  system_ok clk σ → sys_step clk σ σ' → system_ok clk σ'.
Proof.
  intros Hok Hstep. pose proof Hok as [Hnd Hiss Hth].
  split.
  - (* no id is issued twice *)
    destruct Hstep as [σ u b q Hfresh|σ d|σ i t w' p' Ht Hs|σ];
      unfold issued in *; simpl.
    + rewrite fmap_app. apply NoDup_app. split; [done|]. split.
      * intros x Hx Hx'. apply list_elem_of_singleton in Hx' as ->.
        by apply Hfresh.
      * apply NoDup_singleton.
    + done.
    + by rewrite (issued_insert _ _ _ _ Ht).
    + done.
  - (* every stored id was issued *)
    intros sid [s' Hs'].
    destruct (decide (sid ∈ issued σ)) as [Hin|Hnin];
      [by eapply issued_step|].
    assert (session_of σ sid = None) as Hnone.
    { destruct (session_of σ sid) eqn:E; [|done].
      destruct Hnin. apply Hiss. by eexists. }
    destruct Hstep as [σ u b q Hfresh|σ d|σ i t w' p' Ht Hs|σ];
      unfold session_of in *; simpl in *.
    + destruct (decide (u = sid)) as [->|Hne].
      * unfold issued. simpl. rewrite fmap_app. apply elem_of_app.
        right. simpl. by apply list_elem_of_singleton.
      * rewrite lookup_insert_ne in Hs' by done. congruence.
    + exfalso. unfold delete_session in Hs'.
      destruct (search_sessions (world σ) !! d) as [sd|] eqn:Hd;
        simpl in Hs'; [|congruence].
      destruct (decide (d = sid)) as [->|Hne].
      * by rewrite lookup_delete_eq in Hs'.
      * rewrite lookup_delete_ne in Hs' by done. congruence.
    + exfalso. apply step1_do in Hs as (a & k & h & Hp & -> & ->).
      destruct (decide (sid = thread_sid t)) as [->|Hne].
      * apply Hnin. unfold issued.
        apply list_elem_of_fmap. exists t. split; [done|].
        apply list_elem_of_lookup; eauto.
      * rewrite perform_other in Hs' by done. congruence.
    + congruence.
  - (* every tracker is on its way *)
    intros t0 s0 Hin0 Hs0.
    destruct Hstep as [σ u b q Hfresh|σ d|σ i t w' p' Ht Hs|σ];
      unfold session_of in *; simpl in *.
    + apply elem_of_app in Hin0 as [Hold|Hnew].
      * assert (thread_sid t0 ≠ u) as Hne.
        { intros <-. apply Hfresh. unfold issued.
          apply list_elem_of_fmap. by exists t0. }
        rewrite lookup_insert_ne in Hs0 by done. by apply Hth.
      * apply list_elem_of_singleton in Hnew as ->. simpl in *.
        rewrite lookup_insert_eq in Hs0. injection Hs0 as <-.
        apply run_along.
    + apply Hth; [done|].
      unfold delete_session in Hs0.
      destruct (search_sessions (world σ) !! d) as [sd|] eqn:Hd;
        simpl in Hs0; [|done].
      destruct (decide (d = thread_sid t0)) as [->|Hne].
      * by rewrite lookup_delete_eq in Hs0.
      * by rewrite lookup_delete_ne in Hs0.
    + apply step1_do in Hs as (a & k & h & Hp & -> & ->).
      apply list_elem_of_lookup in Hin0 as [j Hj].
      destruct (decide (i = j)) as [->|Hij].
      * rewrite list_lookup_insert_eq in Hj
          by (by eapply lookup_lt_Some).
        injection Hj as <-. simpl in *.
        destruct (search_sessions (world σ) !! thread_sid t)
          as [s|] eqn:Hsid.
        -- destruct (perform_present clk _ a _ s Hsid)
             as (w' & Hpf & Hw').
           rewrite Hpf in *. simpl in *.
           rewrite Hw', lookup_insert_eq in Hs0. injection Hs0 as <-.
           assert (t ∈ threads σ) as Hin
               by (apply list_elem_of_lookup; eauto).
           specialize (Hth t s Hin Hsid). rewrite Hp in Hth.
           eapply along_next, Hth.
        -- destruct (perform_absent clk _ a _ Hsid) as (w' & Hpf & Hw').
           rewrite Hpf in Hs0. simpl in Hs0. rewrite Hw' in Hs0.
           congruence.
      * rewrite list_lookup_insert_ne in Hj by done.
        assert (thread_sid t0 ≠ thread_sid t) as Hne.
        { intros Heq. apply Hij.
          eapply (NoDup_lookup (issued σ)); [done| |];
            unfold issued; rewrite list_lookup_fmap.
          - by rewrite Ht.
          - rewrite Hj. simpl. by rewrite Heq. }
        rewrite perform_other in Hs0 by done.
        apply Hth; [|done]. apply list_elem_of_lookup; eauto.
    + by apply Hth.
Qed.

Lemma reachable_ok σ : reachable clk σ → system_ok clk σ.
Proof.
  intros [n Hsteps]. revert σ Hsteps.
  apply rtc_ind_r; [apply system_ok_boot|].
  intros σ1 σ2 _ Hstep IH. by eapply system_ok_step.
Qed.

(** Every stored record is that of a tracker on its way. *)
Lemma stored_ok σ sid s :
  system_ok clk σ → session_of σ sid = Some s → session_ok s.
Proof.
  intros [_ Hiss Hth] Hs.
  assert (sid ∈ issued σ) as Hin by (apply Hiss; by eexists).
  apply list_elem_of_fmap in Hin as (t & -> & Ht).
  eapply wp_inv, Hth; eauto.
Qed.

(** An id that was issued and whose record is gone stays gone. *)
Lemma sys_step_gone σ σ' sid :
  sid ∈ issued σ → session_of σ sid = None → sys_step clk σ σ' →
  session_of σ' sid = None.
Proof.
  intros Hin Hnone Hstep.
  destruct Hstep as [σ u b q Hfresh|σ d|σ i t w' p' Ht Hs|σ];
    unfold session_of in *; simpl.
  - rewrite lookup_insert_ne; [done|]. by intros ->.
  - unfold delete_session.
    destruct (search_sessions (world σ) !! d) as [sd|] eqn:Hd; simpl;
      [|done].
    destruct (decide (d = sid)) as [->|Hne].
    + by rewrite lookup_delete_eq.
    + by rewrite lookup_delete_ne.
  - apply step1_do in Hs as (a & k & h & Hp & -> & ->).
    destruct (decide (sid = thread_sid t)) as [->|Hne];
      [|by rewrite perform_other].
    destruct (perform_absent clk _ a _ Hnone) as (w' & -> & Hw').
    simpl. by rewrite Hw'.
  - done.
Qed.

(** Over any number of steps the log of a job only gains text at
    its end. *)
Lemma log_extends_rtc σ σ' sid s s' :
  system_ok clk σ → rtc (sys_step clk) σ σ' →
  session_of σ sid = Some s → session_of σ' sid = Some s' →
  extends (output_log s) (output_log s').
Proof.
  intros Hok Hsteps Hs.
  assert (system_ok clk σ' ∧ sid ∈ issued σ'
          ∧ match session_of σ' sid with
            | Some s' => extends (output_log s) (output_log s')
            | None => True
            end) as (_ & _ & H).
  { revert σ' Hsteps. apply rtc_ind_r.
    - split; [exact Hok|]. split.
      + apply (sys_issued clk σ Hok). by eexists.
      + rewrite Hs. apply extends_refl.
    - intros σ1 σ2 _ Hstep (Hok1 & Hin1 & IH).
      split; [by eapply system_ok_step|].
      split; [by eapply issued_step|].
      pose proof (sys_step_entry σ1 σ2 sid Hok1 Hstep) as Hentry.
      destruct (session_of σ1 sid) as [s1|] eqn:E1;
        destruct (session_of σ2 sid) as [s2|] eqn:E2; try done.
      + inversion Hentry as [| | |? ? [_ _ Hlog _ _ _]]; subst.
        * exact IH.
        * by eapply extends_trans.
      + by rewrite (sys_step_gone σ1 σ2 sid Hin1 E1 Hstep) in E2. }
  intros Hs'. by rewrite Hs' in H.
Qed.

Lemma reachable_step σ σ' :
  reachable clk σ → sys_step clk σ σ' → reachable clk σ'.
Proof. intros [n H] Hs. exists n. by eapply rtc_r. Qed.

End Server.
End ServerFacts.

(** ** Runs of the scheduler are runs of the server *)

Module DemoFacts.
Import Py ApiServer Lifecycle ServerFacts.

Lemma tracker_step_sound clk i σ σ' :
  tracker_step clk i σ = Some σ' → sys_step clk σ σ'.
Proof.
  unfold tracker_step.
  destruct (threads σ !! i) as [t|] eqn:Ht; [|done].
  destruct (step1 clk (thread_sid t) (thread_code t) (world σ))
    as [[w' p']|] eqn:Hs; [|done].
  intros [= <-]. by eapply step_tracker.
Qed.

Lemma tracker_steps_sound clk n i σ σ' :
  tracker_steps clk n i σ = Some σ' → rtc (sys_step clk) σ σ'.
Proof.
  revert σ. induction n as [|n IH]; simpl; intros σ.
  - intros [= <-]. apply rtc_refl.
  - destruct (tracker_step clk i σ) as [σ1|] eqn:H1; [|done].
    intros Hn. eapply rtc_l; [by eapply tracker_step_sound | by apply IH].
Qed.

Lemma submitted_reachable b : reachable Demo.clock (Demo.submitted b).
Proof.
  exists 0%nat. apply rtc_once. apply step_start_search.
  apply not_elem_of_nil.
Qed.

Lemma after_reachable n b σ :
  tracker_steps Demo.clock n 0 (Demo.submitted b) = Some σ →
  reachable Demo.clock σ.
Proof.
  intros H. destruct (submitted_reachable b) as [m Hm].
  exists m. etrans; [exact Hm | by eapply tracker_steps_sound].
Qed.

End DemoFacts.

(** ** The definitions at work *)

Module Examples.
Import Py ApiServer WebOperations.

Example quote_plus_question :
  quote_plus "best electric cars 2025 & more"
  = "best+electric+cars+2025+%26+more".
Proof. reflexivity. Qed.

Example progress_of_an_answered_job :
  progress_history Demo.clock "job-1"
    (run_research_with_tracking Demo.answering "q")
    (Demo.one_record "job-1")
  = [0; 0; 5; 5; 5; 10; 100; 100].
Proof. vm_compute. reflexivity. Qed.

Example progress_of_a_failed_job :
  progress_history Demo.clock "job-1"
    (run_research_with_tracking (Demo.failing "quota") "q")
    (Demo.one_record "job-1")
  = [0; 0; 5; 5; 5; 10; 10; 10; 0].
Proof. vm_compute. reflexivity. Qed.

Example status_of_a_job_that_hangs :
  get_search_status "job-1"
    (exec Demo.clock "job-1" (run_research_with_tracking Hangs "q")
       (Demo.one_record "job-1")).1
  = Response (mkStatusResponse "job-1" "timeout" 75 "timeout"
                "Research timed out after 7 minutes"
                (Some timeout_result)).
Proof. vm_compute. reflexivity. Qed.

(** ... and its tracker waits for the worker for ever. *)
Example tracker_of_a_job_that_hangs :
  (exec Demo.clock "job-1" (run_research_with_tracking Hangs "q")
     (Demo.one_record "job-1")).2
  = Blocked.
Proof. vm_compute. reflexivity. Qed.

(** [repr] of a plain id, of an id with an apostrophe and a backslash
    (double quotes around it, the backslash doubled), and of a line
    feed. *)
Example repr_of_ids :
  repr "job-1" = "'job-1'"
  ∧ repr Demo.odd_id
    = String double_quote
        (String "j"
           (String apostrophe
              (String backslash
                 (String backslash
                    (String "b" (String double_quote EmptyString))))))
  ∧ repr nl = String apostrophe
                (String backslash (String "n" (String apostrophe "")))
  ∧ String.length (repr (String "a" (String backslash "b"))) = 6%nat.
Proof. vm_compute. by repeat split. Qed.

(** A job deleted before its tracker runs: the first statement raises
    [KeyError], the handler logs and raises [KeyError] again, and
    the store stays empty. *)
Example tracker_of_a_deleted_job :
  let w := mkWorld ∅ 0 [] in
  let out := exec Demo.clock "job-1"
               (run_research_with_tracking Demo.answering "q") w in
  out.2 = Escaped (KeyError "job-1")
  ∧ search_sessions out.1 = ∅
  ∧ console out.1 = [LoggerError "Error in research process: 'job-1'"].
Proof. vm_compute. by repeat split. Qed.

(** An empty JSON object counts as a failed zone. *)
Example empty_object_is_a_failure :
  (serp_search None
     (Demo.always (Answers (mkHttpResponse 200 "{}" None (Json (PDict ∅)))))
     "cars" "google" Demo.quiet).2
  = Ok PNone.
Proof. vm_compute. reflexivity. Qed.

(** A 500 answer: two lines are printed for the request, and the search
    gives [None]. *)
Example server_error_gives_none :
  serp_search (Some "k")
    (Demo.always
       (Answers (mkHttpResponse 500 "oops" (Some "500 Server Error")
                   (JsonOtherError "no JSON"))))
    "cars" "bing" Demo.quiet
  = (mkIO ["Trying bing search with zone: ai_agent";
           "API request failed: 500 - oops";
           "API request failed: 500 Server Error";
           "❌ bing search failed with zone: ai_agent";
           "❌ All zones failed for bing search"]
       [mkRequest api_url
          [("Authorization", "Bearer k");
           ("Content-Type", "application/json")]
          (payload_of "ai_agent" "https://www.bing.com/search" "cars")],
     Ok PNone).
Proof. vm_compute. reflexivity. Qed.

End Examples.

(** ** api_server.py: the claims *)

Module ApiServerSpec.
Import Py ApiServer Lifecycle LifecycleFacts StoreFacts ServerFacts.

(** C1.  In every state the server can reach, the [result] of a stored
    job is not [None] exactly when its [status] is one of [completed],
    [partial_success], [timeout] and [error].  (A submission stores
    [result = None] with status [started]; no statement of a tracker
    sets a terminal status without a result, nor a result without a
    terminal status.) *)
Theorem result_iff_terminal clk σ sid s :
  reachable clk σ → session_of σ sid = Some s →
  result s ≠ None ↔ terminal (status s) = true.
Proof.
  intros Hreach Hs.
  destruct (stored_ok clk σ sid s (reachable_ok clk σ Hreach) Hs)
    as [Hres _ _ _].
  destruct (result s) as [r|].
  - split; [|done]. intros _. by destruct (status s).
  - split; [done|]. intros Hterm. by rewrite Hterm in Hres.
Qed.

Lemma result_iff_terminal_witness :
  ∃ s, session_of (Demo.after 8 (Demo.failing "quota")) "job-1" = Some s
       ∧ status s = error
       ∧ (result s ≠ None ↔ terminal (status s) = true).
Proof.
  eexists. split; [vm_compute; reflexivity|]. split; [reflexivity|].
  apply (result_iff_terminal Demo.clock
           (Demo.after 8 (Demo.failing "quota")) "job-1").
  - apply (DemoFacts.after_reachable 8 (Demo.failing "quota")).
    vm_compute. reflexivity.
  - vm_compute. reflexivity.
Defined.

(** C2, as stated, fails: when the pipeline raises, the last statement
    of the tracker takes the progress of the job from 10 back to 0. *)
Lemma progress_drops_on_error :
  ¬ (∀ clk σ σ' sid s s',
       reachable clk σ → sys_step clk σ σ' →
       session_of σ sid = Some s → session_of σ' sid = Some s' →
       progress s ≤ progress s').
Proof.
  intros Hclaim.
  assert (reachable Demo.clock (Demo.after 7 (Demo.failing "quota")))
    as Hreach
    by (apply (DemoFacts.after_reachable 7 (Demo.failing "quota"));
        vm_compute; reflexivity).
  assert (sys_step Demo.clock (Demo.after 7 (Demo.failing "quota"))
            (Demo.after 8 (Demo.failing "quota"))) as Hstep
    by (apply (DemoFacts.tracker_step_sound _ 0); vm_compute; reflexivity).
  pose proof (Hclaim _ _ _ "job-1" _ _ Hreach Hstep
                ltac:(vm_compute; reflexivity)
                ltac:(vm_compute; reflexivity)) as Hle.
  vm_compute in Hle. by apply Hle.
Qed.

(** C2, amended.  In every state the server can reach, the progress of
    a stored job is between 0 and 100; it is 100, 90, 75 or 0 when the
    status is [completed], [partial_success], [timeout] or [error];
    and a step of the server leaves it as it is or raises it, except
    for the step into [error], which sets it to 0. *)
Theorem progress_bounds clk σ sid s :
  reachable clk σ → session_of σ sid = Some s →
  0 ≤ progress s ≤ 100
  ∧ (status s = completed → progress s = 100)
  ∧ (status s = partial_success → progress s = 90)
  ∧ (status s = timeout → progress s = 75)
  ∧ (status s = error → progress s = 0)
  ∧ ∀ σ' s', sys_step clk σ σ' → session_of σ' sid = Some s' →
             progress s ≤ progress s'
             ∨ (status s' = error ∧ progress s' = 0).
Proof.
  intros Hreach Hs. pose proof (reachable_ok clk σ Hreach) as Hok.
  destruct (stored_ok clk σ sid s Hok Hs) as [_ Hrange Hfin _].
  split; [exact Hrange|].
  repeat (split;
          [intros Hst; rewrite Hfin by (by rewrite Hst);
           by rewrite Hst|]).
  intros σ' s' Hstep Hs'.
  pose proof (sys_step_entry clk σ σ' sid Hok Hstep) as Hentry.
  rewrite Hs, Hs' in Hentry.
  inversion Hentry as [o|?|?|s0 s0' [_ _ _ _ Hp _]]; subst.
  - left. lia.
  - exact Hp.
Qed.

Lemma progress_bounds_witness :
  ∃ s, session_of (Demo.after 5 Demo.answering) "job-1" = Some s
       ∧ progress s = 10
       ∧ ∀ s', session_of (Demo.after 6 Demo.answering) "job-1" = Some s' →
               progress s ≤ progress s'
               ∨ (status s' = error ∧ progress s' = 0).
Proof.
  eexists. split; [vm_compute; reflexivity|]. split; [reflexivity|].
  intros s' Hs'.
  refine (proj2 (proj2 (proj2 (proj2 (proj2
            (progress_bounds Demo.clock (Demo.after 5 Demo.answering)
               "job-1" _ _ _)))))
            (Demo.after 6 Demo.answering) s' _ Hs').
  - apply (DemoFacts.after_reachable 5 Demo.answering).
    vm_compute. reflexivity.
  - vm_compute. reflexivity.
  - apply (DemoFacts.tracker_step_sound _ 0). vm_compute. reflexivity.
Defined.

Lemma answer_of_some st a :
  final_answer st = Some a → a ≠ "" → answer_of (Some st) = Some a.
Proof.
  intros Ha Hne. unfold answer_of. rewrite Ha.
  destruct a; [done | reflexivity].
Qed.

Lemma answer_of_none fs :
  fs = None
  ∨ (∃ st, fs = Some st
           ∧ (final_answer st = None ∨ final_answer st = Some "")) →
  answer_of fs = None.
Proof.
  intros [->|(st & -> & [H|H])]; unfold answer_of; [done|..];
    by rewrite H.
Qed.

(** C3, as stated, fails: not every failure of the pipeline makes the
    job [error].  [SystemExit] is not an [Exception]: raised by the
    pipeline after three seconds, it is caught by neither handler of
    the body, leaves the tracker, and the job stays [running] at
    progress 10 with no result, which is no terminal state.  And an
    exception of the class of [concurrent.futures.TimeoutError],
    raised by the pipeline after three seconds, is caught by the inner
    handler: the job ends in [timeout], not in [error]. *)
Lemma failure_is_not_always_error :
  (exec Demo.clock "job-1" (run_research_with_tracking Demo.exiting "q")
     (Demo.one_record "job-1")).2
  = Escaped (SystemExit "1")
  ∧ get_search_status "job-1"
      (exec Demo.clock "job-1"
         (run_research_with_tracking Demo.exiting "q")
         (Demo.one_record "job-1")).1
    = Response (mkStatusResponse "job-1" "running" 10 "research_started"
                  "Running parallel searches..." None)
  ∧ get_search_status "job-1"
      (exec Demo.clock "job-1"
         (run_research_with_tracking Demo.raising_timeout "q")
         (Demo.one_record "job-1")).1
    = Response (mkStatusResponse "job-1" "timeout" 75 "timeout"
                  "Research timed out after 7 minutes"
                  (Some timeout_result)).
Proof. repeat split; vm_compute; reflexivity. Qed.

(** C3, amended.  Run on a stored job, the body of the tracker leaves
    the job in one terminal state and returns, in each of these cases:
    [completed] with progress 100 and the answer as result when the
    pipeline returns, within 420 seconds, a state with a non-empty
    final answer; [partial_success] with progress 90 and its message
    when it returns in time a falsy value, or a state whose final
    answer is missing or empty; [timeout] with progress 75 when it has
    not returned after 420 seconds; [error] with progress 0 and the
    text of the exception in message and result when it raises in time
    an exception that is an [Exception] and not a
    [concurrent.futures.TimeoutError].  When the pipeline never
    answers, the job is in [timeout] all the same, and the tracker
    waits for its worker for ever. *)
Theorem run_classifies clk graph_invoke question0 sid w s :
  search_sessions w !! sid = Some s →
  ∃ w' s' r,
    exec clk sid (run_research_with_tracking graph_invoke question0) w
    = (w', r)
    ∧ search_sessions w' !! sid = Some s'
    ∧ (∀ d st a,
         graph_invoke = Returns d (Some st) → d ≤ 420 →
         final_answer st = Some a → a ≠ "" →
         r = Finished
         ∧ status s' = completed ∧ progress s' = 100
         ∧ message s' = "Research completed successfully!"
         ∧ result s' = Some a)
    ∧ (∀ d fs,
         graph_invoke = Returns d fs → d ≤ 420 →
         fs = None
         ∨ (∃ st, fs = Some st
                  ∧ (final_answer st = None ∨ final_answer st = Some "")) →
         r = Finished
         ∧ status s' = partial_success ∧ progress s' = 90
         ∧ message s' = "Research completed but with some issues"
         ∧ result s' = Some partial_result)
    ∧ ((∃ d fs, graph_invoke = Returns d fs ∧ 420 < d)
       ∨ (∃ d e, graph_invoke = Fails d e ∧ 420 < d) →
       r = Finished
       ∧ status s' = timeout ∧ progress s' = 75
       ∧ message s' = "Research timed out after 7 minutes"
       ∧ result s' = Some timeout_result)
    ∧ (graph_invoke = Hangs →
       r = Blocked
       ∧ status s' = timeout ∧ progress s' = 75
       ∧ message s' = "Research timed out after 7 minutes"
       ∧ result s' = Some timeout_result)
    ∧ (∀ d e,
         graph_invoke = Fails d e → d ≤ 420 →
         exn_is_exception e = true → exn_is_timeout e = false →
         r = Finished
         ∧ status s' = error ∧ progress s' = 0
         ∧ message s' = "Error occurred: " +:+ exn_str e
         ∧ result s'
           = Some ("Research failed due to an error: " +:+ exn_str e)).
Proof.
  intros Hs.
  destruct (exec_wp clk _ _ sid _ _ w s Hs
              (run_classified clk graph_invoke question0 s))
    as (w' & s' & r & Hexec & Hs' & -> & Hcl).
  exists w', s', (run_ending graph_invoke).
  split; [exact Hexec|]. split; [exact Hs'|].
  split; [|split; [|split; [|split]]].
  - intros d st a -> Hd Ha Hne.
    unfold run_ending, future_result in *.
    destruct (Z.leb_spec d 420); [|lia].
    unfold classified in Hcl.
    by rewrite (answer_of_some st a Ha Hne) in Hcl.
  - intros d fs -> Hd Hfs.
    unfold run_ending, future_result in *.
    destruct (Z.leb_spec d 420); [|lia].
    unfold classified in Hcl. by rewrite (answer_of_none fs Hfs) in Hcl.
  - intros [(d & fs & -> & Hd)|(d & e & -> & Hd)];
      unfold run_ending, future_result in *;
      (destruct (Z.leb_spec d 420); [lia|]); by split.
  - intros ->. by split.
  - intros d e -> Hd Hexc Htime.
    unfold run_ending, future_result in *.
    destruct (Z.leb_spec d 420); [|lia].
    unfold classified in Hcl. rewrite Htime, Hexc in *. by split.
Qed.

Lemma run_classifies_witness :
  ∃ w' s',
    exec Demo.clock "job-1"
      (run_research_with_tracking (Demo.failing "quota") "q")
      (Demo.one_record "job-1")
    = (w', Finished)
    ∧ search_sessions w' !! "job-1" = Some s'
    ∧ status s' = error ∧ progress s' = 0
    ∧ message s' = "Error occurred: quota".
Proof.
  destruct (run_classifies Demo.clock (Demo.failing "quota") "q" "job-1"
              (Demo.one_record "job-1")
              (new_session "job-1" "q" "t0" "t1"))
    as (w' & s' & r & Hexec & Hs' & _ & _ & _ & _ & Herror).
  - vm_compute. reflexivity.
  - destruct (Herror 3 (Exn "RuntimeError" true false "quota"))
      as (-> & Hst & Hp & Hm & _);
      [reflexivity | lia | reflexivity | reflexivity |].
    exists w', s'. split; [exact Hexec|]. split; [exact Hs'|].
    split; [exact Hst|]. split; [exact Hp|]. exact Hm.
Defined.

(** The failures that the amended C3 leaves out, for every job and
    pipeline: raised in time, an exception of the class of
    [concurrent.futures.TimeoutError] ends in [timeout], and an
    exception that is not an [Exception] leaves the tracker with the
    job [running] at progress 10. *)
Lemma run_other_failures clk d e question0 sid w s :
  search_sessions w !! sid = Some s → d ≤ 420 →
  ∃ w' s' r,
    exec clk sid (run_research_with_tracking (Fails d e) question0) w
    = (w', r)
    ∧ search_sessions w' !! sid = Some s'
    ∧ (exn_is_timeout e = true →
       r = Finished ∧ status s' = timeout ∧ progress s' = 75)
    ∧ (exn_is_timeout e = false → exn_is_exception e = false →
       r = Escaped e ∧ status s' = running ∧ progress s' = 10).
Proof.
  intros Hs Hd.
  destruct (exec_wp clk _ _ sid _ _ w s Hs
              (run_classified clk (Fails d e) question0 s))
    as (w' & s' & r & Hexec & Hs' & -> & Hcl).
  exists w', s', (run_ending (Fails d e)).
  split; [exact Hexec|]. split; [exact Hs'|].
  unfold run_ending, future_result in *.
  destruct (Z.leb_spec d 420); [|lia].
  unfold classified in Hcl.
  split.
  - intros Htime. rewrite Htime in *.
    destruct Hcl as (? & ? & _). by repeat split.
  - intros Htime Hexc. rewrite Htime, Hexc in *.
    destruct Hcl. by repeat split.
Qed.




(** C7.  For an id that is not in the store, the status, the output
    and the delete handler each answer with the 404 exception, and
    the delete handler leaves the store as it is; for an id that is
    in the store, the delete handler answers with its message and
    takes the record out, so that the status handler answers 404 from
    then on. *)
Theorem unknown_id_not_found sid w :
  (search_sessions w !! sid = None →
   get_search_status sid w = HTTPException 404 "Session not found"
   ∧ get_output_log sid w = HTTPException 404 "Session not found"
   ∧ delete_session sid w = (w, HTTPException 404 "Session not found"))
  ∧ (is_Some (search_sessions w !! sid) →
     (delete_session sid w).2 = Response "Session deleted successfully"
     ∧ search_sessions (delete_session sid w).1 !! sid = None
     ∧ get_search_status sid (delete_session sid w).1
       = HTTPException 404 "Session not found").
Proof.
  unfold get_search_status, get_output_log, delete_session. split.
  - intros ->. done.
  - intros [s ->]. simpl. rewrite lookup_delete_eq. done.
Qed.

Lemma unknown_id_not_found_witness :
  get_search_status "no-such-id" (Demo.one_record "job-1")
  = HTTPException 404 "Session not found"
  ∧ get_search_status "job-1"
      (delete_session "job-1" (Demo.one_record "job-1")).1
    = HTTPException 404 "Session not found".
Proof.
  split.
  - apply (proj1 (unknown_id_not_found "no-such-id"
                    (Demo.one_record "job-1"))).
    vm_compute. reflexivity.
  - apply (proj2 (unknown_id_not_found "job-1" (Demo.one_record "job-1"))).
    vm_compute. eexists. reflexivity.
Defined.



(** C9.  [log_to_session] puts one line, its time stamp in front,
    after the log that is there; and between any state the server can
    reach and any later one, the log of a job that is stored in both
    has not become shorter, and the earlier log is a prefix of the
    later one. *)
Theorem log_append_only clk :
  (∀ sid msg w s,
     search_sessions w !! sid = Some s →
     ∃ s', search_sessions (log_to_session clk sid msg w) !! sid = Some s'
           ∧ output_log s'
             = output_log s
               +:+ ("[" +:+ strftime_HMS clk (now_calls w) +:+ "] "
                        +:+ msg +:+ nl))
  ∧ (∀ σ σ' sid s s',
       reachable clk σ → rtc (sys_step clk) σ σ' →
       session_of σ sid = Some s → session_of σ' sid = Some s' →
       (String.length (output_log s) ≤ String.length (output_log s'))%nat
       ∧ String.prefix (output_log s) (output_log s') = true).
Proof.
  split.
  - intros sid msg w s Hs.
    destruct (log_to_session_present clk sid msg w s Hs) as [Hw _].
    eexists. rewrite Hw, lookup_insert_eq. split; reflexivity.
  - intros σ σ' sid s s' Hreach Hsteps Hs Hs'.
    pose proof (log_extends_rtc clk σ σ' sid s s'
                  (reachable_ok clk σ Hreach) Hsteps Hs Hs') as Hext.
    split; [by apply extends_length | by apply extends_prefix].
Qed.

Lemma log_append_only_witness :
  ∃ s s',
    session_of (Demo.after 2 Demo.answering) "job-1" = Some s
    ∧ session_of (Demo.after 7 Demo.answering) "job-1" = Some s'
    ∧ (String.length (output_log s) ≤ String.length (output_log s'))%nat
    ∧ String.prefix (output_log s) (output_log s') = true.
Proof.
  eexists. eexists.
  split; [vm_compute; reflexivity|]. split; [vm_compute; reflexivity|].
  eapply (proj2 (log_append_only Demo.clock)
            (Demo.after 2 Demo.answering) (Demo.after 7 Demo.answering)
            "job-1").
  - apply (DemoFacts.after_reachable 2 Demo.answering).
    vm_compute. reflexivity.
  - apply (DemoFacts.tracker_steps_sound Demo.clock 5 0).
    vm_compute. reflexivity.
  - vm_compute. reflexivity.
  - vm_compute. reflexivity.
Defined.

End ApiServerSpec.

(** ** web_operations.py: the claims *)

Module WebOperationsSpec.
Import Py WebOperations.

Section Provider.
Context (key : option string) (net : nat → Request → Reply).

(** One request goes out, whatever comes back, and nothing is
    raised: the value is that of the reply. *)
Lemma make_api_request_value url payload io :
  ∃ rq out,
    _make_api_request key net url payload io
    = (mkIO out (posted io ++ [rq])%list,
       reply_value (net (List.length (posted io)) rq))
    ∧ req_url rq = url ∧ req_json rq = payload.
Proof.
  unfold _make_api_request, reply_value.
  exists (mkRequest url
            [("Authorization", "Bearer " +:+ default "None" key);
             ("Content-Type", "application/json")] payload).
  destruct (net _ _) as [e|e|[code txt [he|] [v|je|je]]];
    unfold print, post; simpl;
    eexists; split; try reflexivity; by split.
Qed.

(** The loop never raises while every reply is a failure, a falsy
    value or a JSON object. *)
Lemma try_zones_no_raise engine base_url query zones io :
  (∀ n rq, truthy (reply_value (net n rq)) = false
           ∨ ∃ d, reply_value (net n rq) = PDict d) →
  ∃ io' v, try_zones key net engine base_url query zones io
           = (io', Ok v).
Proof.
  intros Hnet. revert io.
  induction zones as [|zone rest IH]; intros io; simpl.
  - by eexists _, _.
  - destruct (make_api_request_value api_url
                (payload_of zone base_url query)
                (print ("Trying " +:+ engine
                        +:+ " search with zone: " +:+ zone) io))
      as (rq & out & -> & _ & _).
    destruct (Hnet (List.length (posted io)) rq) as [Hf|[d Hd]];
      simpl in *.
    + rewrite Hf. apply IH.
    + rewrite Hd. simpl.
      destruct (negb (bool_decide (d = ∅))); [by eexists _, _|].
      apply IH.
Qed.

(** When no zone gives a truthy value the answer is [None]. *)
Lemma try_zones_exhausted engine base_url query zones io :
  (∀ n rq, truthy (reply_value (net n rq)) = false) →
  (try_zones key net engine base_url query zones io).2 = Ok PNone.
Proof.
  intros Hnet. revert io.
  induction zones as [|zone rest IH]; intros io; simpl; [done|].
  destruct (make_api_request_value api_url
              (payload_of zone base_url query)
              (print ("Trying " +:+ engine
                      +:+ " search with zone: " +:+ zone) io))
    as (rq & out & -> & _ & _).
  simpl. rewrite Hnet. apply IH.
Qed.

(** A first zone that answers with a non-empty JSON object ends the
    loop with the two fields taken from it. *)
Lemma try_zones_first engine base_url query zone rest io d :
  (∀ rq, reply_value (net (List.length (posted io)) rq) = PDict d) →
  d ≠ ∅ →
  ∃ io',
    try_zones key net engine base_url query (zone :: rest) io
    = (io', Ok (extracted_data (default (PDict ∅) (d !! "knowledge"))
                  (default (PList []) (d !! "organic")))).
Proof.
  intros Hnet Hd. simpl.
  destruct (make_api_request_value api_url
              (payload_of zone base_url query)
              (print ("Trying " +:+ engine
                      +:+ " search with zone: " +:+ zone) io))
    as (rq & out & -> & _ & _).
  simpl. rewrite Hnet. simpl.
  rewrite bool_decide_eq_false_2 by done. simpl. by eexists.
Qed.

(** The loop over one zone, in full: [None] for a falsy value, the two
    fields for a non-empty JSON object, [AttributeError] for any other
    truthy value. *)
Lemma try_zones_one engine base_url query zone io :
  ∃ rq,
    (try_zones key net engine base_url query [zone] io).2
    = let v := reply_value (net (List.length (posted io)) rq) in
      if truthy v then
        match v with
        | PDict d =>
            Ok (extracted_data (default (PDict ∅) (d !! "knowledge"))
                  (default (PList []) (d !! "organic")))
        | _ =>
            Raised (AttributeError
                      ("'" +:+ type_name v
                           +:+ "' object has no attribute 'get'"))
        end
      else Ok PNone.
Proof.
  simpl.
  destruct (make_api_request_value api_url
              (payload_of zone base_url query)
              (print ("Trying " +:+ engine
                      +:+ " search with zone: " +:+ zone) io))
    as (rq & out & -> & _ & _).
  exists rq. simpl.
  destruct (reply_value (net (List.length (posted io)) rq))
    as [|[]|z|v|l|d]; simpl; try reflexivity.
  - by destruct (negb (z =? 0)).
  - by destruct (str_truthy v).
  - by destruct l.
  - by destruct (negb (bool_decide (d = ∅))).
Qed.

End Provider.

(** C5: the search raises past its boundary.  The reply 200 OK with
    the JSON array [[1]] as body is truthy and has no [get]: the
    [AttributeError] of line 59 leaves [serp_search]. *)
Theorem serp_search_raises_on_list_payload :
  (serp_search (Some "secret") (Demo.always Demo.list_reply)
     "best electric cars 2025" "google" Demo.quiet).2
  = Raised (AttributeError "'list' object has no attribute 'get'").
Proof. vm_compute. reflexivity. Qed.

(** C6, as stated, fails for the successful response whose body is the
    empty JSON object: 200 OK, [raise_for_status] passes, the body
    decodes to [{}], both fields are missing.  [{}] is falsy, so the
    test [if full_response:] of line 57 takes the zone for failed, and
    [serp_search] returns [None] instead of a dict with the two empty
    containers. *)
Lemma empty_object_is_not_normalized :
  ok Demo.empty_object_response = true
  ∧ body Demo.empty_object_response = Json (PDict ∅)
  ∧ (serp_search (Some "secret")
       (Demo.always (Answers Demo.empty_object_response))
       "best electric cars 2025" "google" Demo.quiet).2
    = Ok PNone
  ∧ ∀ r, (serp_search (Some "secret")
            (Demo.always (Answers Demo.empty_object_response))
            "best electric cars 2025" "google" Demo.quiet).2
         ≠ Ok (PDict r).
Proof.
  assert ((serp_search (Some "secret")
             (Demo.always (Answers Demo.empty_object_response))
             "best electric cars 2025" "google" Demo.quiet).2
          = Ok PNone) as Hrun by (vm_compute; reflexivity).
  split; [reflexivity|]. split; [reflexivity|]. split; [exact Hrun|].
  intros r. rewrite Hrun. discriminate.
Qed.

(** C6, amended.  When the provider answers the request of a supported
    engine with a response that passes [raise_for_status] and whose
    body is a non-empty JSON object, [serp_search] returns a dict with exactly
    the keys "knowledge" and "organic": each holds the value of that
    field of the body, or the empty dict, respectively the empty list,
    when the body has no such field.  No other field of the body
    has a part in it. *)
Theorem normalization_extracts key net query engine io response d :
  engine = "google" ∨ engine = "bing" →
  (∀ rq, net (List.length (posted io)) rq = Answers response) →
  http_error response = None → body response = Json (PDict d) →
  d ≠ ∅ →
  ∃ io' r,
    serp_search key net query engine io = (io', Ok (PDict r))
    ∧ r !! "knowledge" = Some (default (PDict ∅) (d !! "knowledge"))
    ∧ r !! "organic" = Some (default (PList []) (d !! "organic"))
    ∧ dom r = {["knowledge"; "organic"]}.
Proof.
  intros Hengine Hnet Herr Hbody Hd.
  assert (∀ rq, reply_value (net (List.length (posted io)) rq) = PDict d)
    as Hval
    by (intros rq; unfold reply_value; by rewrite Hnet, Herr, Hbody).
  assert (∀ base_url,
            ∃ io', try_zones key net engine base_url query zones_to_try io
                   = (io', Ok (extracted_data
                                 (default (PDict ∅) (d !! "knowledge"))
                                 (default (PList []) (d !! "organic")))))
    as Hzones
    by (intros base_url; by apply try_zones_first).
  unfold serp_search.
  destruct Hengine as [-> | ->];
    [change (String.eqb "google" "google") with true; cbv iota;
     destruct (Hzones "https://www.google.com/search") as [io' ->]
    |change (String.eqb "bing" "google") with false;
     change (String.eqb "bing" "bing") with true; cbv iota;
     destruct (Hzones "https://www.bing.com/search") as [io' ->]];
    exists io'; eexists; (split; [reflexivity|]);
    (split; [by rewrite lookup_insert_eq|]);
    (split; [by rewrite lookup_insert_ne, lookup_insert_eq|]);
    rewrite !dom_insert_L; set_solver.
Qed.

Lemma normalization_extracts_witness :
  ∃ io' r,
    serp_search (Some "secret") (Demo.always Demo.object_reply)
      "best electric cars 2025" "bing" Demo.quiet
    = (io', Ok (PDict r))
    ∧ r !! "knowledge" = Some (PDict ∅)
    ∧ r !! "organic" = Some (PList [PStr "hit"])
    ∧ dom r = {["knowledge"; "organic"]}.
Proof.
  destruct (normalization_extracts (Some "secret")
              (Demo.always Demo.object_reply) "best electric cars 2025"
              "bing" Demo.quiet Demo.object_response Demo.object_body)
    as (io' & r & Hrun & Hknowledge & Horganic & Hdom).
  - right. reflexivity.
  - intros rq. reflexivity.
  - reflexivity.
  - reflexivity.
  - vm_compute. discriminate.
  - exists io', r. split; [exact Hrun|].
    split; [exact Hknowledge|]. split; [exact Horganic | exact Hdom].
Defined.

(** C10.  For an engine that is neither "google" nor "bing",
    [serp_search] raises [ValueError] and has done nothing before:
    no request was sent and nothing was printed. *)
Theorem unsupported_engine_raises key net query engine io :
  engine ≠ "google" → engine ≠ "bing" →
  serp_search key net query engine io
  = (io, Raised (ValueError
                   "Unsupported search engine. Use 'google' or 'bing'.")).
Proof.
  intros Hg Hb. unfold serp_search.
  destruct (String.eqb_spec engine "google"); [done|].
  destruct (String.eqb_spec engine "bing"); [done|].
  reflexivity.
Qed.

Lemma unsupported_engine_raises_witness :
  serp_search None (Demo.always Demo.object_reply) "cars" "duckduckgo"
    Demo.quiet
  = (Demo.quiet,
     Raised (ValueError
               "Unsupported search engine. Use 'google' or 'bing'.")).
Proof.
  apply unsupported_engine_raises; vm_compute; discriminate.
Defined.

End WebOperationsSpec.


(** * More of the code *)

(** ** The store under any number of steps *)

Module ServerMore.
Import Py ApiServer Lifecycle LifecycleFacts StoreFacts ServerFacts.

Section Server.
Context (clk : Clock).

(** What a step does to the entry of an id, statement by statement. *)
Lemma sys_step_cases σ σ' sid :
  sys_step clk σ σ' →
  session_of σ' sid = session_of σ sid
  ∨ session_of σ' sid = None
  ∨ ((sid ∉ issued σ)
     ∧ (∃ q created updated,
          session_of σ' sid = Some (new_session sid q created updated)))
  ∨ (∃ s a n, session_of σ sid = Some s
              ∧ session_of σ' sid = Some (apply_stmt clk a n s)).
Proof.
  intros Hstep.
  destruct Hstep as [σ u b q Hfresh|σ d|σ i t w' p' Ht Hs|σ];
    unfold session_of; simpl.
  - destruct (decide (u = sid)) as [->|Hne].
    + right. right. left. split; [done|].
      rewrite lookup_insert_eq. by eexists _, _, _.
    + left. by rewrite lookup_insert_ne.
  - unfold delete_session.
    destruct (search_sessions (world σ) !! d) as [s|] eqn:Hd; simpl;
      [|by left].
    destruct (decide (d = sid)) as [->|Hne].
    + right. left. apply lookup_delete_eq.
    + left. by rewrite lookup_delete_ne.
  - apply step1_do in Hs as (a & k & h & Hp & -> & ->).
    destruct (decide (sid = thread_sid t)) as [->|Hne];
      [|left; by rewrite perform_other].
    destruct (search_sessions (world σ) !! thread_sid t) as [s|] eqn:Hsid.
    + destruct (perform_present clk _ a _ s Hsid) as (w' & -> & Hw').
      right. right. right. exists s, a, (now_calls (world σ)).
      split; [done|]. simpl. rewrite Hw'. apply lookup_insert_eq.
    + destruct (perform_absent clk _ a _ Hsid) as (w' & -> & Hw').
      left. simpl. by rewrite Hw'.
  - by left.
Qed.

(** A property of the new record that every statement keeps holds of
    every stored record. *)
Lemma stored_invariant (J : string → Session → Prop) σ sid s :
  (∀ sid q created updated, J sid (new_session sid q created updated)) →
  (∀ sid a n s, J sid s → J sid (apply_stmt clk a n s)) →
  reachable clk σ → session_of σ sid = Some s → J sid s.
Proof.
  intros Hnew Hkeep [n Hsteps]. revert sid s. revert σ Hsteps.
  apply (rtc_ind_r (λ σ, ∀ sid s, session_of σ sid = Some s → J sid s)).
  - intros sid s Hs. unfold session_of in Hs. simpl in Hs.
    by rewrite lookup_empty in Hs.
  - intros σ1 σ2 _ Hstep IH sid s Hs.
    destruct (sys_step_cases σ1 σ2 sid Hstep)
      as [Heq|[Hnone|[(_ & q & c & u & Hcreated)
                     |(s1 & a & m & Hs1 & Hs2)]]].
    + apply IH. by rewrite <- Heq.
    + congruence.
    + rewrite Hcreated in Hs. injection Hs as <-. apply Hnew.
    + rewrite Hs2 in Hs. injection Hs as <-. by apply Hkeep, IH.
Qed.

(** A relation that holds over every step between two records of an id
    holds over any number of steps. *)
Lemma rtc_stored (R : Session → Session → Prop) σ σ' sid s s' :
  (∀ x, R x x) → (∀ x y z, R x y → R y z → R x z) →
  (∀ σ1 σ2 s1 s2,
     system_ok clk σ1 → sys_step clk σ1 σ2 →
     session_of σ1 sid = Some s1 → session_of σ2 sid = Some s2 →
     R s1 s2) →
  system_ok clk σ → rtc (sys_step clk) σ σ' →
  session_of σ sid = Some s → session_of σ' sid = Some s' →
  R s s'.
Proof.
  intros Hrefl Htrans Hone Hok Hsteps Hs.
  assert (system_ok clk σ' ∧ sid ∈ issued σ'
          ∧ match session_of σ' sid with
            | Some s' => R s s'
            | None => True
            end) as (_ & _ & H).
  { revert σ' Hsteps. apply rtc_ind_r.
    - split; [exact Hok|]. split.
      + apply (sys_issued clk σ Hok). by eexists.
      + rewrite Hs. apply Hrefl.
    - intros σ1 σ2 _ Hstep (Hok1 & Hin1 & IH).
      split; [by eapply system_ok_step|].
      split; [by eapply issued_step|].
      destruct (session_of σ2 sid) as [s2|] eqn:E2; [|done].
      destruct (session_of σ1 sid) as [s1|] eqn:E1.
      + eapply Htrans; [exact IH|]. by eapply Hone.
      + by rewrite (sys_step_gone clk σ1 σ2 sid Hin1 E1 Hstep) in E2. }
  intros Hs'. by rewrite Hs' in H.
Qed.

End Server.
End ServerMore.

(** ** api_server.py: the life of a record *)

Module ApiServerExtra.
Import Py ApiServer Lifecycle LifecycleFacts StoreFacts ServerFacts.
Import ServerMore.

(** X1.  A step of the server leaves the status of a stored job as it
    is, or takes it from [started] to [running], or from [running] to
    one of the four terminal states: no other move is made. *)
Theorem status_moves_forward clk σ σ' sid s s' :
  reachable clk σ → sys_step clk σ σ' →
  session_of σ sid = Some s → session_of σ' sid = Some s' →
  status s' = status s
  ∨ (status s = started ∧ status s' = running)
  ∨ (status s = running ∧ terminal (status s') = true).
Proof.
  intros Hreach Hstep Hs Hs'.
  pose proof (sys_step_entry clk σ σ' sid (reachable_ok clk σ Hreach) Hstep)
    as Hentry.
  rewrite Hs, Hs' in Hentry.
  inversion Hentry as [| | |? ? [_ _ _ Harrow _ _]]; subst.
  - by left.
  - exact Harrow.
Qed.

Lemma status_moves_forward_witness :
  ∃ s s',
    session_of (Demo.after 5 Demo.answering) "job-1" = Some s
    ∧ session_of (Demo.after 6 Demo.answering) "job-1" = Some s'
    ∧ status s = running ∧ status s' = completed.
Proof.
  eexists. eexists.
  split; [vm_compute; reflexivity|]. split; [vm_compute; reflexivity|].
  edestruct (status_moves_forward Demo.clock
               (Demo.after 5 Demo.answering) (Demo.after 6 Demo.answering)
               "job-1") as [H|[[_ H]|[H _]]].
  - apply (DemoFacts.after_reachable 5 Demo.answering).
    vm_compute. reflexivity.
  - apply (DemoFacts.tracker_step_sound _ 0). vm_compute. reflexivity.
  - vm_compute. reflexivity.
  - vm_compute. reflexivity.
  - discriminate H.
  - discriminate H.
  - by split.
Defined.

(** X2.  Once a stored job is in a terminal state, its status, its
    progress and its result stay as they are over any number of steps of
    the server, for as long as the job is stored. *)
Theorem terminal_is_final clk σ σ' sid s s' :
  reachable clk σ → rtc (sys_step clk) σ σ' →
  session_of σ sid = Some s → session_of σ' sid = Some s' →
  terminal (status s) = true →
  status s' = status s ∧ progress s' = progress s ∧ result s' = result s.
Proof.
  intros Hreach Hsteps Hs Hs' Hterm.
  refine (rtc_stored clk
            (λ x y, terminal (status x) = true →
                    status y = status x ∧ progress y = progress x
                    ∧ result y = result x)
            σ σ' sid s s' _ _ _ (reachable_ok clk σ Hreach) Hsteps Hs Hs'
            Hterm).
  - done.
  - intros x y z Hxy Hyz Hx. destruct (Hxy Hx) as (Hst & Hp & Hr).
    destruct Hyz as (Hst' & Hp' & Hr'); [by rewrite Hst|].
    by rewrite Hst', Hp', Hr'.
  - intros σ1 σ2 s1 s2 Hok1 Hstep H1 H2 Ht.
    pose proof (sys_step_entry clk σ1 σ2 sid Hok1 Hstep) as Hentry.
    pose proof (stored_ok clk σ1 sid s1 Hok1 H1) as [Hres1 _ Hfin1 _].
    pose proof (stored_ok clk σ2 sid s2
                  (system_ok_step clk σ1 σ2 Hok1 Hstep) H2)
      as [_ _ Hfin2 _].
    rewrite H1, H2 in Hentry.
    inversion Hentry as [| | |? ? [_ _ _ Harrow _ Hresult]]; subst;
      [done|].
    assert (status s2 = status s1) as Hst.
    { destruct Harrow as [H|[[H _]|[H _]]]; [done|..];
        rewrite H in Ht; discriminate Ht. }
    split; [exact Hst|]. split.
    + rewrite Hfin2, Hfin1, Hst by (by rewrite ?Hst). done.
    + destruct Hresult as [H|H]; [done|].
      rewrite H, Ht in Hres1. discriminate Hres1.
Qed.

Lemma terminal_is_final_witness :
  ∃ s s',
    session_of (Demo.after 6 Demo.answering) "job-1" = Some s
    ∧ session_of (Demo.after 7 Demo.answering) "job-1" = Some s'
    ∧ status s' = status s ∧ progress s' = progress s
    ∧ result s' = result s.
Proof.
  eexists. eexists.
  split; [vm_compute; reflexivity|]. split; [vm_compute; reflexivity|].
  eapply (terminal_is_final Demo.clock
            (Demo.after 6 Demo.answering) (Demo.after 7 Demo.answering)
            "job-1").
  - apply (DemoFacts.after_reachable 6 Demo.answering).
    vm_compute. reflexivity.
  - apply (DemoFacts.tracker_steps_sound Demo.clock 1 0).
    vm_compute. reflexivity.
  - vm_compute. reflexivity.
  - vm_compute. reflexivity.
  - reflexivity.
Defined.

(** X3.  In every state the server can reach, the record stored under
    an id carries that id in its [session_id] field. *)
Theorem record_carries_its_key clk σ sid s :
  reachable clk σ → session_of σ sid = Some s → session_id s = sid.
Proof.
  apply (stored_invariant clk (λ sid s, session_id s = sid)).
  - done.
  - intros sid0 a n s0 H. by destruct a.
Qed.

Lemma record_carries_its_key_witness :
  ∃ s, session_of (Demo.after 3 Demo.answering) "job-1" = Some s
       ∧ session_id s = "job-1".
Proof.
  eexists. split; [vm_compute; reflexivity|].
  apply (record_carries_its_key Demo.clock (Demo.after 3 Demo.answering)).
  - apply (DemoFacts.after_reachable 3 Demo.answering).
    vm_compute. reflexivity.
  - vm_compute. reflexivity.
Defined.

(** X4.  The question, the id and the creation time of a stored job
    never change: they are the same in any two states of the server,
    one after the other, in which the job is stored. *)
Theorem question_and_creation_are_fixed clk σ σ' sid s s' :
  reachable clk σ → rtc (sys_step clk) σ σ' →
  session_of σ sid = Some s → session_of σ' sid = Some s' →
  question s' = question s ∧ session_id s' = session_id s
  ∧ created_at s' = created_at s.
Proof.
  intros Hreach Hsteps Hs Hs'.
  refine (rtc_stored clk
            (λ x y, question y = question x ∧ session_id y = session_id x
                    ∧ created_at y = created_at x)
            σ σ' sid s s' _ _ _ (reachable_ok clk σ Hreach) Hsteps Hs Hs').
  - done.
  - intros x y z (-> & -> & ->) (-> & -> & ->). done.
  - intros σ1 σ2 s1 s2 Hok1 Hstep H1 H2.
    destruct (sys_step_cases clk σ1 σ2 sid Hstep)
      as [Heq|[Hnone|[(Hfresh & _)|(s0 & a & n & Hs0 & Hs2)]]].
    + rewrite H1, H2 in Heq. by injection Heq as ->.
    + congruence.
    + destruct Hfresh. apply (sys_issued clk σ1 Hok1). by eexists.
    + rewrite H1 in Hs0. injection Hs0 as <-.
      rewrite H2 in Hs2. injection Hs2 as ->. by destruct a.
Qed.

Lemma question_and_creation_are_fixed_witness :
  ∃ s s',
    session_of (Demo.submitted Demo.answering) "job-1" = Some s
    ∧ session_of (Demo.after 7 Demo.answering) "job-1" = Some s'
    ∧ question s' = question s ∧ session_id s' = session_id s
    ∧ created_at s' = created_at s.
Proof.
  eexists. eexists.
  split; [vm_compute; reflexivity|]. split; [vm_compute; reflexivity|].
  eapply (question_and_creation_are_fixed Demo.clock
            (Demo.submitted Demo.answering) (Demo.after 7 Demo.answering)
            "job-1").
  - apply DemoFacts.submitted_reachable.
  - apply (DemoFacts.tracker_steps_sound Demo.clock 7 0).
    vm_compute. reflexivity.
  - vm_compute. reflexivity.
  - vm_compute. reflexivity.
Defined.

(** X5.  In every state the server can reach, [completed_at] is set on
    a stored job exactly when its status is terminal. *)
Theorem completed_at_iff_terminal clk σ sid s :
  reachable clk σ → session_of σ sid = Some s →
  completed_at s ≠ None ↔ terminal (status s) = true.
Proof.
  intros Hreach Hs.
  assert (completed_at s = None ↔ result s = None) as Hboth.
  { revert Hreach Hs.
    apply (stored_invariant clk
             (λ _ s, completed_at s = None ↔ result s = None)).
    - done.
    - intros _ a n s0 H. destruct a; simpl; try exact H. done. }
  destruct (stored_ok clk σ sid s (reachable_ok clk σ Hreach) Hs)
    as [Hres _ _ _].
  destruct (result s) as [r|].
  - split.
    + intros _. by destruct (status s).
    + intros _ Hc. apply Hboth in Hc. discriminate Hc.
  - split.
    + intros Hc. destruct Hc. by apply Hboth.
    + intros Ht. rewrite Ht in Hres. discriminate Hres.
Qed.

Lemma completed_at_iff_terminal_witness :
  ∃ s, session_of (Demo.after 5 Demo.answering) "job-1" = Some s
       ∧ completed_at s = None
       ∧ (completed_at s ≠ None ↔ terminal (status s) = true).
Proof.
  eexists. split; [vm_compute; reflexivity|]. split; [reflexivity|].
  apply (completed_at_iff_terminal Demo.clock
           (Demo.after 5 Demo.answering) "job-1").
  - apply (DemoFacts.after_reachable 5 Demo.answering).
    vm_compute. reflexivity.
  - vm_compute. reflexivity.
Defined.

(** X6.  The tracker of a job whose record is gone (deleted before the
    thread got to run) writes nothing to the store: its first statement
    raises [KeyError], the handler writes one line to the error log and
    its [dict.update] raises [KeyError] again, which ends the thread.
    The line holds [repr] of the id, which is modelled for ASCII ids
    (the server issues the text of a UUID). *)
Theorem tracker_of_deleted_job clk graph_invoke question0 sid w :
  is_ascii sid = true →
  search_sessions w !! sid = None →
  exec clk sid (run_research_with_tracking graph_invoke question0) w
  = (emit (LoggerError ("Error in research process: " +:+ repr sid)) w,
     Escaped (KeyError sid)).
Proof.
  intros _ Hnone. unfold run_research_with_tracking, try_except.
  cbn [try_catch seq atomic exec perform]. rewrite Hnone.
  cbn [try_catch seq atomic exec perform exn_str exn_is_exception
         KeyError].
  rewrite log_to_session_absent by done.
  cbn [search_sessions emit]. rewrite Hnone. reflexivity.
Qed.

Lemma tracker_of_deleted_job_witness :
  exec Demo.clock Demo.odd_id
    (run_research_with_tracking Demo.answering "q")
    (Demo.one_record "job-1")
  = (emit (LoggerError
             ("Error in research process: " +:+ repr Demo.odd_id))
       (Demo.one_record "job-1"),
     Escaped (KeyError Demo.odd_id)).
Proof.
  apply (tracker_of_deleted_job Demo.clock Demo.answering "q"
           Demo.odd_id (Demo.one_record "job-1")).
  - vm_compute. reflexivity.
  - vm_compute. reflexivity.
Defined.

(** X7.  Whatever is left of its body, the tracker of one job changes
    the record of no other job. *)
Theorem tracker_touches_its_job_only clk sid sid' p w :
  sid' ≠ sid →
  search_sessions (exec clk sid p w).1 !! sid' = search_sessions w !! sid'.
Proof.
  intros Hne. revert w.
  induction p as [|e| |a k IHk h IHh]; intros w; simpl;
    [done|done|done|].
  pose proof (perform_other clk sid a w sid' Hne) as Hother.
  destruct (perform clk sid a w) as [w1 [u|e]]; simpl in Hother.
  - by rewrite IHk.
  - by rewrite IHh.
Qed.

(** The tracker of job-2 runs its whole body on a store that holds
    job-1 and job-2: job-2 ends [completed], job-1 is as it was. *)
Lemma tracker_touches_its_job_only_witness :
  status <$> search_sessions
               (exec Demo.clock "job-2"
                  (run_research_with_tracking Demo.answering "q2")
                  Demo.two_records).1 !! "job-2"
  = Some completed
  ∧ search_sessions
      (exec Demo.clock "job-2"
         (run_research_with_tracking Demo.answering "q2")
         Demo.two_records).1 !! "job-1"
    = search_sessions Demo.two_records !! "job-1".
Proof.
  split; [vm_compute; reflexivity|].
  apply (tracker_touches_its_job_only Demo.clock "job-2" "job-1").
  discriminate.
Defined.

(** X8.  Whatever is left of its body, a tracker neither adds a key to
    the store nor removes one: a deleted job is not brought back, and
    the number of stored jobs stays. *)
Theorem tracker_keeps_the_keys clk sid p w :
  dom (search_sessions (exec clk sid p w).1) = dom (search_sessions w)
  ∧ size (search_sessions (exec clk sid p w).1) = size (search_sessions w).
Proof.
  assert (dom (search_sessions (exec clk sid p w).1)
          = dom (search_sessions w)) as Hdom.
  { revert w. induction p as [|e| |a k IHk h IHh]; intros w; simpl;
      [done|done|done|].
    assert (dom (search_sessions (perform clk sid a w).1)
            = dom (search_sessions w)) as Hdom.
    { destruct (search_sessions w !! sid) as [s|] eqn:Hs.
      - destruct (perform_present clk sid a w s Hs) as (w' & -> & Hw').
        simpl. rewrite Hw'. apply dom_insert_lookup_L. by eexists.
      - destruct (perform_absent clk sid a w Hs) as (w' & -> & Hw').
        simpl. by rewrite Hw'. }
    destruct (perform clk sid a w) as [w1 [u|e]]; simpl in Hdom.
    - by rewrite IHk.
    - by rewrite IHh. }
  split; [exact Hdom|].
  by rewrite <- !size_dom, Hdom.
Qed.

(** X9.  [health_check] reports the number of stored jobs, and the two
    handlers that change the store move that number by one: a submission
    under an id that is not stored raises it by one, the deletion of a
    stored job lowers it by one, and the deletion of an unknown id
    leaves it. *)
Theorem health_counts_jobs clk w :
  (health_check clk w).2
  = Response (mkHealthResponse "healthy" (isoformat clk (now_calls w))
                (size (search_sessions w)))
  ∧ (∀ threads0 uuid4 graph_invoke question0,
       search_sessions w !! uuid4 = None →
       size (search_sessions
               (world (start_search clk uuid4 graph_invoke question0
                         (mkSystem w threads0)).1))
       = S (size (search_sessions w)))
  ∧ (∀ sid, is_Some (search_sessions w !! sid) →
            S (size (search_sessions (delete_session sid w).1))
            = size (search_sessions w))
  ∧ (∀ sid, search_sessions w !! sid = None →
            size (search_sessions (delete_session sid w).1)
            = size (search_sessions w)).
Proof.
  split; [reflexivity|]. split; [|split].
  - intros threads0 uuid4 b q Hnone. simpl.
    by apply map_size_insert_None.
  - intros sid [s Hs]. unfold delete_session. rewrite Hs. simpl.
    rewrite map_size_delete_Some by (by eexists).
    assert (size (search_sessions w) ≠ 0%nat) as Hne.
    { intros H0. apply map_size_empty_inv in H0.
      rewrite H0, lookup_empty in Hs. discriminate Hs. }
    destruct (size (search_sessions w)); [done | reflexivity].
  - intros sid Hnone. unfold delete_session. by rewrite Hnone.
Qed.

Lemma health_counts_jobs_witness :
  size (search_sessions
          (delete_session "job-1" (Demo.one_record "job-1")).1)
  = 0%nat.
Proof.
  pose proof (proj1 (proj2 (proj2 (health_counts_jobs Demo.clock
                                     (Demo.one_record "job-1"))))
                "job-1") as H.
  assert (is_Some (search_sessions (Demo.one_record "job-1") !! "job-1"))
    as Hstored by (vm_compute; eexists; reflexivity).
  apply eq_add_S. exact (H Hstored).
Defined.

End ApiServerExtra.

(** ** web_operations.py: requests and zones *)

Module WebOperationsExtra.
Import Py WebOperations ProviderRequests.

Section Provider.
Context (key : option string) (net : nat → Request → Reply).

Lemma make_api_request_run url payload io :
  ∃ out,
    _make_api_request key net url payload io
    = (mkIO (stdout io ++ out)
         (posted io ++ [request_of key url payload])%list,
       reply_value (net (List.length (posted io))
                      (request_of key url payload))).
Proof.
  unfold _make_api_request, reply_value, request_of.
  destruct (net _ _) as [e|e|[code txt [he|] [v|je|je]]];
    unfold print, post; simpl;
    try (eexists; rewrite <- ?app_assoc; reflexivity).
  exists []. by rewrite app_nil_r.
Qed.

(** X10.  [_make_api_request] sends exactly one request, with the
    payload it was given and the header "Authorization: Bearer <key>",
    which reads "Bearer None" when the key is not set; it only adds
    to what was printed; and it gives back the decoded body when the
    response passes [raise_for_status] and decodes, and [None] on a
    transport error, on any other exception, on a response that fails
    [raise_for_status] and on a body that does not decode. *)
Theorem one_request_with_bearer url payload io :
  let rq := mkRequest url
              [("Authorization",
                "Bearer " +:+ match key with Some k => k | None => "None" end);
               ("Content-Type", "application/json")] payload in
  let reply := net (List.length (posted io)) rq in
  let out := _make_api_request key net url payload io in
  posted out.1 = (posted io ++ [rq])%list
  ∧ (∃ more, stdout out.1 = (stdout io ++ more)%list)
  ∧ (∀ response v, reply = Answers response →
                   http_error response = None → body response = Json v →
                   out.2 = v)
  ∧ ((∃ e, reply = RequestException e) ∨ (∃ e, reply = OtherException e)
     ∨ (∃ response, reply = Answers response
                    ∧ (http_error response ≠ None
                       ∨ (∃ e, body response = JsonRequestError e)
                       ∨ (∃ e, body response = JsonOtherError e))) →
     out.2 = PNone).
Proof.
  intros rq reply out.
  destruct (make_api_request_run url payload io) as [more Hrun].
  assert (rq = request_of key url payload) as Hrq
    by (subst rq; unfold request_of; by destruct key).
  subst out. rewrite Hrun. simpl. rewrite <- Hrq. fold reply.
  split; [done|]. split; [by exists more|]. split.
  - intros response v -> Herr Hbody. simpl. by rewrite Herr, Hbody.
  - intros [[e ->]|[[e ->]|(response & -> & Hwhy)]]; simpl; try done.
    destruct (http_error response) as [he|]; [done|].
    destruct Hwhy as [H|[[e ->]|[e ->]]]; done.
Qed.

Lemma try_zones_posted engine base_url query zones io :
  ∃ k,
    (k ≤ List.length zones)%nat
    ∧ (zones ≠ [] → (1 ≤ k)%nat)
    ∧ posted (try_zones key net engine base_url query zones io).1
      = (posted io ++ (zone_request key base_url query <$> take k zones))%list
    ∧ ((∀ n rq, truthy (reply_value (net n rq)) = false) →
       k = List.length zones)
    ∧ ((∀ rq, truthy (reply_value (net (List.length (posted io)) rq))
              = true) →
       k = 1%nat ∨ zones = []).
Proof.
  revert io. induction zones as [|zone rest IH]; intros io.
  - exists 0%nat. simpl. rewrite app_nil_r. repeat split; auto; done.
  - cbn [try_zones].
    destruct (make_api_request_run api_url
                (payload_of zone base_url query)
                (print ("Trying " +:+ engine
                        +:+ " search with zone: " +:+ zone) io))
      as [more ->].
    cbn [posted print].
    fold (zone_request key base_url query zone).
    set (v := reply_value
                (net (List.length (posted io))
                   (zone_request key base_url query zone))).
    destruct (truthy v) eqn:Hv.
    + exists 1%nat. cbn [take fmap list_fmap List.length].
      split; [lia|]. split; [done|]. split.
      * destruct (py_get v "knowledge" (PDict ∅)); [|done].
        destruct (py_get v "organic" (PList [])); done.
      * split; [|by left].
        intros Hall. unfold v in Hv. by rewrite Hall in Hv.
    + match goal with
      | |- context [try_zones _ _ _ _ _ rest ?io1] =>
          destruct (IH io1) as (k & Hk & Hk1 & Hposted & Hall & _)
      end.
      exists (S k). cbn [take fmap list_fmap List.length].
      split; [lia|]. split; [lia|]. split.
      * rewrite Hposted. cbn [posted print]. by rewrite <- app_assoc.
      * split; [intros H; by rewrite (Hall H)|].
        intros Htrue. unfold v in Hv. by rewrite Htrue in Hv.
Qed.

(** X11.  The loop of [serp_search] sends its requests zone by zone, in
    the order of the list and without leaving one out or asking twice:
    what it sends is the request of each zone of a front part of the
    list.  It is the whole list when no zone gives a truthy value, and
    the first zone alone when that zone gives one. *)
Theorem zones_are_tried_in_order engine base_url query zones io :
  ∃ k,
    (k ≤ List.length zones)%nat
    ∧ posted (try_zones key net engine base_url query zones io).1
      = (posted io
         ++ ((λ zone,
               mkRequest api_url
                 [("Authorization", "Bearer " +:+ default "None" key);
                  ("Content-Type", "application/json")]
                 (payload_of zone base_url query)) <$> take k zones))%list
    ∧ ((∀ n rq, truthy (reply_value (net n rq)) = false) →
       k = List.length zones)
    ∧ ((∀ rq, truthy (reply_value (net (List.length (posted io)) rq))
              = true) →
       zones ≠ [] → k = 1%nat).
Proof.
  destruct (try_zones_posted engine base_url query zones io)
    as (k & Hk & _ & Hposted & Hall & Hfirst).
  exists k. split; [exact Hk|]. split; [exact Hposted|].
  split; [exact Hall|].
  intros Htrue Hne. by destruct (Hfirst Htrue).
Qed.

(** X12.  A search with a supported engine sends exactly one request,
    whatever comes back and also when the search raises: a POST to the
    provider with zone "ai_agent", format "raw" and the url of the
    engine with the quoted query and [brd_json=1]. *)
Theorem one_request_per_search query engine io :
  engine = "google" ∨ engine = "bing" →
  posted (serp_search key net query engine io).1
  = (posted io
     ++ [mkRequest "https://api.brightdata.com/request"
           [("Authorization", "Bearer " +:+ default "None" key);
            ("Content-Type", "application/json")]
           (PDict (<["zone" := PStr "ai_agent"]>
                   (<["url" := PStr ("https://www." +:+ engine
                                     +:+ ".com/search?q="
                                     +:+ quote_plus query
                                     +:+ "&brd_json=1")]>
                   (<["format" := PStr "raw"]> ∅))))])%list.
Proof.
  intros Hengine. unfold serp_search.
  assert (∀ base_url,
            posted (try_zones key net engine base_url query zones_to_try
                      io).1
            = (posted io
               ++ [zone_request key base_url query "ai_agent"])%list) as Hone.
  { intros base_url.
    destruct (try_zones_posted engine base_url query zones_to_try io)
      as (k & Hk & Hk1 & -> & _).
    unfold zones_to_try in *. simpl in Hk.
    specialize (Hk1 ltac:(done)).
    assert (k = 1%nat) as -> by lia. reflexivity. }
  destruct Hengine as [-> | ->].
  - change (String.eqb "google" "google") with true. cbv iota.
    rewrite Hone. reflexivity.
  - change (String.eqb "bing" "google") with false.
    change (String.eqb "bing" "bing") with true. cbv iota.
    rewrite Hone. reflexivity.
Qed.

(** X13.  A response that passes [raise_for_status] and whose body
    decodes to a falsy value (the empty object, the empty array, null,
    0, the empty string, false) counts as a failed zone: the search
    with a supported engine gives [None], and does not raise. *)
Theorem falsy_body_is_no_result query engine io response v :
  engine = "google" ∨ engine = "bing" →
  (∀ rq, net (List.length (posted io)) rq = Answers response) →
  http_error response = None → body response = Json v →
  truthy v = false →
  (serp_search key net query engine io).2 = Ok PNone.
Proof.
  intros Hengine Hnet Herr Hbody Hv.
  assert (∀ base_url,
            (try_zones key net engine base_url query zones_to_try io).2
            = Ok PNone) as Hone.
  { intros base_url. unfold zones_to_try. cbn [try_zones].
    destruct (make_api_request_run api_url
                (payload_of "ai_agent" base_url query)
                (print ("Trying " +:+ engine
                        +:+ " search with zone: " +:+ "ai_agent") io))
      as [more ->].
    cbn [posted print]. rewrite Hnet. unfold reply_value.
    rewrite Herr, Hbody, Hv. reflexivity. }
  unfold serp_search. destruct Hengine as [-> | ->].
  - change (String.eqb "google" "google") with true. cbv iota.
    apply Hone.
  - change (String.eqb "bing" "google") with false.
    change (String.eqb "bing" "bing") with true. cbv iota.
    apply Hone.
Qed.

End Provider.

Lemma one_request_with_bearer_witness :
  posted (_make_api_request None (Demo.always Demo.list_reply)
            "https://api.brightdata.com/request" PNone Demo.quiet).1
  = [mkRequest "https://api.brightdata.com/request"
       [("Authorization", "Bearer None");
        ("Content-Type", "application/json")] PNone].
Proof.
  exact (proj1 (one_request_with_bearer None (Demo.always Demo.list_reply)
                  "https://api.brightdata.com/request" PNone Demo.quiet)).
Defined.

Lemma one_request_per_search_witness :
  List.length
    (posted (serp_search (Some "secret") (Demo.always Demo.list_reply)
               "cars" "google" Demo.quiet).1)
  = 1%nat.
Proof.
  rewrite (one_request_per_search (Some "secret")
             (Demo.always Demo.list_reply) "cars" "google" Demo.quiet).
  - reflexivity.
  - left. reflexivity.
Defined.

Lemma falsy_body_is_no_result_witness :
  (serp_search None
     (Demo.always
        (Answers (mkHttpResponse 200 "[]" None (Json (PList [])))))
     "cars" "bing" Demo.quiet).2
  = Ok PNone.
Proof.
  eapply (falsy_body_is_no_result None).
  - right. reflexivity.
  - intros rq. reflexivity.
  - reflexivity.
  - reflexivity.
  - reflexivity.
Defined.

End WebOperationsExtra.

(** ** web_operations.py: snapshots and the Reddit operations *)

Module RedditOperationsExtra.
Import Py WebOperations RedditOperations SnapshotRequests.

(** The pieces that a loop over a [str] sees make up the [str]. *)
Lemma code_points_concat s :
  foldr String.append "" (code_points s) = s.
Proof.
  induction s as [|c rest IH]; [done|]. simpl.
  destruct (code_points rest) as [|g gs]; simpl in *.
  - by rewrite <- IH.
  - destruct (starts_with_continuation g); simpl; by rewrite <- IH.
Qed.

Example code_points_of_a_word :
  code_points "né!" = ["n"; "é"; "!"].
Proof. reflexivity. Qed.

(** Called with [json=] alone or with [params=] as well,
    [_make_api_request] prints the same lines and gives the same value
    for the same reply. *)
Lemma make_api_request_agree key (reply : Reply) url params payload :
  stdout (WebOperations._make_api_request key (fun _ _ => reply)
            url payload (mkIO [] [])).1
  = printed (RedditOperations._make_api_request key (fun _ _ => reply)
               url params payload (mkOut [] [])).1
  ∧ (WebOperations._make_api_request key (fun _ _ => reply)
       url payload (mkIO [] [])).2
    = (RedditOperations._make_api_request key (fun _ _ => reply)
         url params payload (mkOut [] [])).2.
Proof.
  unfold WebOperations._make_api_request,
    RedditOperations._make_api_request.
  destruct reply as [e|e|[code txt [he|] [v|je|je]]]; by split.
Qed.

Section Snapshots.
Context (key : option string) (net : nat → Call → Reply).
Context (py_str : pyval → string) (dict_keys : gmap string pyval → list string).

Lemma trigger_request_run url params data o :
  ∃ more,
    RedditOperations._make_api_request key net url params data o
    = (mkOut (printed o ++ more)
         (calls o ++ [call_of key url params data])%list,
       trigger_value key net url params data o).
Proof.
  unfold RedditOperations._make_api_request, trigger_value, reply_value,
    call_of.
  destruct (net _ _) as [e|e|[code txt [he|] [v|je|je]]];
    unfold say, send; simpl;
    try (eexists; rewrite <- ?app_assoc; reflexivity).
  exists []. by rewrite app_nil_r.
Qed.

Lemma after_trigger_calls url params data name o :
  calls (after_trigger key net url params data name o)
  = (calls o ++ [call_of key url params data])%list.
Proof.
  unfold after_trigger.
  destruct (trigger_request_run url params data
              (say ("🔄 Triggering " +:+ name +:+ " snapshot...") o))
    as [more ->].
  reflexivity.
Qed.

(** The trigger, after its request. *)
Lemma trigger_run poll download url params data name o :
  _trigger_and_download_snapshot key net poll download py_str
    url params data name o
  = let o1 := after_trigger key net url params data name o in
    let v := trigger_value key net url params data o in
    if negb (truthy v) then
      (say ("❌ Failed to trigger " +:+ name +:+ " snapshot") o1, Ok PNone)
    else
      match py_get v "snapshot_id" PNone with
      | Raised e => (o1, Raised e)
      | Ok snapshot_id =>
          if negb (truthy snapshot_id) then
            (say ("❌ No snapshot_id returned for " +:+ name) o1, Ok PNone)
          else
            match poll snapshot_id
                    (say ("⏳ Polling snapshot " +:+ py_str snapshot_id
                          +:+ " for " +:+ name +:+ "...") o1) with
            | (o2, Raised e) => (o2, Raised e)
            | (o2, Ok polled) =>
                if negb (truthy polled) then
                  (say ("❌ Snapshot " +:+ py_str snapshot_id
                        +:+ " failed or timed out") o2,
                   Ok PNone)
                else
                  download snapshot_id
                    (say ("📥 Downloading snapshot "
                          +:+ py_str snapshot_id +:+ " for "
                          +:+ name +:+ "...") o2)
            end
      end.
Proof.
  unfold _trigger_and_download_snapshot, after_trigger.
  destruct (trigger_request_run url params data
              (say ("🔄 Triggering " +:+ name +:+ " snapshot...") o))
    as [more ->].
  reflexivity.
Qed.

(** X14.  When the trigger gets no truthy value from the provider, or a
    JSON object without a truthy "snapshot_id", the snapshot is given
    up: [None] is returned after the one request of the trigger, and
    neither the poll nor the download has a part in it. *)
Theorem no_snapshot_no_poll poll download poll' download'
    url params data name o :
  let v := trigger_value key net url params data o in
  truthy v = false
  ∨ (∃ d, v = PDict d
          ∧ truthy (default PNone (d !! "snapshot_id")) = false) →
  (_trigger_and_download_snapshot key net poll download py_str
     url params data name o).2 = Ok PNone
  ∧ calls (_trigger_and_download_snapshot key net poll download py_str
             url params data name o).1
    = (calls o ++ [call_of key url params data])%list
  ∧ _trigger_and_download_snapshot key net poll download py_str
      url params data name o
    = _trigger_and_download_snapshot key net poll' download' py_str
        url params data name o.
Proof.
  intros v Hv. rewrite !trigger_run. cbv zeta. fold v.
  destruct Hv as [Hv|(d & Hd & Hid)].
  - rewrite Hv. simpl. by rewrite after_trigger_calls.
  - rewrite Hd. destruct (truthy (PDict d)); simpl; rewrite ?Hid; simpl;
      by rewrite after_trigger_calls.
Qed.

(** X15.  When the poll never reports a truthy value, the download has
    no part in the run, and the only value returned is [None]. *)
Theorem failed_poll_skips_download poll download download'
    url params data name o :
  (∀ id o1 o2 r, poll id o1 = (o2, Ok r) → truthy r = false) →
  _trigger_and_download_snapshot key net poll download py_str
    url params data name o
  = _trigger_and_download_snapshot key net poll download' py_str
      url params data name o
  ∧ ∀ out r,
      _trigger_and_download_snapshot key net poll download py_str
        url params data name o = (out, Ok r) →
      r = PNone.
Proof.
  intros Hpoll. rewrite !trigger_run. cbv zeta.
  destruct (negb (truthy (trigger_value key net url params data o)));
    [split; [done|]; by intros out r [= _ <-]|].
  destruct (py_get _ _ _) as [id|e]; [|split; [done|]; by intros out r].
  destruct (negb (truthy id));
    [split; [done|]; by intros out r [= _ <-]|].
  destruct (poll id _) as [o2 [polled|e]] eqn:Hp;
    [|split; [done|]; by intros out r].
  rewrite (Hpoll _ _ _ _ Hp). simpl.
  split; [done|]. by intros out r [= _ <-].
Qed.

(** X16.  A truthy value from the provider that is not a JSON object
    (an array, a string, a number, true) makes the trigger raise
    [AttributeError] at line 78, before any poll. *)
Theorem trigger_raises_on_non_object poll download
    url params data name o :
  let v := trigger_value key net url params data o in
  truthy v = true → is_dict v = false →
  _trigger_and_download_snapshot key net poll download py_str
    url params data name o
  = (after_trigger key net url params data name o,
     Raised (AttributeError
               ("'" +:+ type_name v
                    +:+ "' object has no attribute 'get'"))).
Proof.
  intros v Hv Hd. rewrite trigger_run. cbv zeta. fold v.
  rewrite Hv. simpl. by destruct v.
Qed.

(** *** The two loops *)

Lemma parse_post_shape post parsed :
  parse_post post = Some parsed →
  ∃ title url, parsed = PDict (<["title" := title]> (<["url" := url]> ∅)).
Proof.
  destruct post as [| | |s|l|d]; simpl; intros [= <-]; by eexists _, _.
Qed.

Lemma parse_post_keeps posts :
  Forall (λ post, is_dict post = true ∨ ∃ s, post = PStr s) posts →
  List.length (omap parse_post posts) = List.length posts.
Proof.
  intros Hall. induction Hall as [|x l Hx _ IH]; [done|].
  cbn [omap list_omap].
  destruct Hx as [Hx|[s ->]]; [destruct x; try done|]; simpl;
    by rewrite IH.
Qed.

Lemma parse_posts_run posts parsed_data o :
  (parse_posts posts parsed_data o).2
  = (parsed_data ++ omap parse_post posts)%list
  ∧ calls (parse_posts posts parsed_data o).1 = calls o.
Proof.
  revert parsed_data o.
  induction posts as [|post rest IH]; intros parsed_data o; simpl.
  - by rewrite app_nil_r.
  - destruct (parse_post post) as [parsed|].
    + destruct (IH (parsed_data ++ [parsed])%list o) as [-> ->].
      by rewrite <- app_assoc.
    + by destruct (IH parsed_data
                     (say ("Warning: Unexpected post type <class '"
                           +:+ type_name post +:+ "'>, skipping") o))
        as [-> ->].
Qed.

Lemma parse_comment_dict comment :
  is_dict comment = true →
  parse_comment comment = Ok (comment_fields comment).
Proof. by destruct comment. Qed.

Lemma parse_comment_other comment :
  is_dict comment = false →
  parse_comment comment
  = Raised (AttributeError
              ("'" +:+ type_name comment
                   +:+ "' object has no attribute 'get'")).
Proof. by destruct comment. Qed.

Lemma parse_comments_all comments parsed :
  Forall (λ c, is_dict c = true) comments →
  parse_comments comments parsed
  = Ok (parsed ++ (comment_fields <$> comments))%list.
Proof.
  intros Hall. revert parsed.
  induction Hall as [|c rest Hc _ IH]; intros parsed; simpl.
  - by rewrite app_nil_r.
  - rewrite (parse_comment_dict c Hc), IH. by rewrite <- app_assoc.
Qed.

Lemma parse_comments_stop before c behind parsed :
  Forall (λ c, is_dict c = true) before → is_dict c = false →
  parse_comments (before ++ c :: behind) parsed
  = Raised (AttributeError
              ("'" +:+ type_name c +:+ "' object has no attribute 'get'")).
Proof.
  intros Hall Hc. revert parsed.
  induction Hall as [|c0 rest Hc0 _ IH]; intros parsed; simpl.
  - by rewrite (parse_comment_other c Hc).
  - by rewrite (parse_comment_dict c0 Hc0), IH.
Qed.

(** X17.  Whatever the provider, the poll and the download do, a value
    that [reddit_search_api] returns is [None] or a dict with the list
    "parsed_posts" and its length as "total_found"; each element of the
    list is a dict with the two keys "title" and "url" and no other. *)
Theorem search_result_shape poll download
    keyword date sort_by num_of_posts o v :
  (reddit_search_api key net poll download py_str dict_keys
     keyword date sort_by num_of_posts o).2 = Ok v →
  v = PNone
  ∨ ∃ posts,
      v = PDict (<["parsed_posts" := PList posts]>
                 (<["total_found" := PInt (Z.of_nat (List.length posts))]>
                    ∅))
      ∧ Forall (λ post, ∃ title url,
                  post = PDict (<["title" := title]>
                                (<["url" := url]> ∅))) posts.
Proof.
  unfold reddit_search_api.
  destruct (_trigger_and_download_snapshot _ _ _ _ _ _ _ _ _ _)
    as [o1 [raw_data|e]]; [|done].
  destruct (negb (truthy raw_data)); [intros [= <-]; by left|].
  destruct (py_iter dict_keys raw_data) as [posts|e]; [|done].
  match goal with
  | |- context [parse_posts posts [] ?o2] =>
      pose proof (parse_posts_run posts [] o2) as [Hparsed _];
      destruct (parse_posts posts [] o2) as [o3 parsed]
  end.
  simpl in Hparsed. subst parsed.
  intros [= <-]. right. eexists. split; [reflexivity|].
  apply Forall_forall. intros parsed Hin.
  apply list_elem_of_omap in Hin as (post & _ & Hpost).
  by eapply parse_post_shape.
Qed.

(** X18.  When the download hands out a non-empty list, the posts that
    [reddit_search_api] returns are those of the list in their order:
    a dict gives its "title" and "url" (the empty string for a missing
    one), a string becomes a title with an empty url, and everything
    else is left out.  Nothing is left out of a list of dicts and
    strings. *)
Theorem search_keeps_the_order poll download
    keyword date sort_by num_of_posts o raw :
  (_trigger_and_download_snapshot key net poll download py_str
     trigger_url search_params
     (search_data keyword date sort_by num_of_posts) "reddit" o).2
  = Ok (PList raw) →
  raw ≠ [] →
  (reddit_search_api key net poll download py_str dict_keys
     keyword date sort_by num_of_posts o).2
  = Ok (PDict (<["parsed_posts" := PList (omap parse_post raw)]>
               (<["total_found"
                  := PInt (Z.of_nat (List.length (omap parse_post raw)))]>
                  ∅)))
  ∧ (Forall (λ post, is_dict post = true ∨ ∃ s, post = PStr s) raw →
     List.length (omap parse_post raw) = List.length raw).
Proof.
  intros Hrun Hne. unfold reddit_search_api.
  destruct (_trigger_and_download_snapshot _ _ _ _ _ _ _ _ _ _)
    as [o1 r]. simpl in Hrun. subst r.
  destruct raw as [|post rest]; [done|]. cbn [truthy negb py_iter].
  split.
  - match goal with
    | |- context [parse_posts ?ps [] ?o2] =>
        pose proof (parse_posts_run ps [] o2) as [Hparsed _];
        destruct (parse_posts ps [] o2) as [o3 parsed]
    end.
    simpl in Hparsed. by subst parsed.
  - apply parse_post_keeps.
Qed.

(** X19.  When the download hands out a number other than 0, or true,
    [reddit_search_api] raises [TypeError] at line 124: the value is
    truthy and cannot be run through. *)
Theorem search_raises_on_a_number poll download
    keyword date sort_by num_of_posts o raw :
  (_trigger_and_download_snapshot key net poll download py_str
     trigger_url search_params
     (search_data keyword date sort_by num_of_posts) "reddit" o).2
  = Ok raw →
  truthy raw = true →
  (∃ z, raw = PInt z) ∨ (∃ b, raw = PBool b) →
  (reddit_search_api key net poll download py_str dict_keys
     keyword date sort_by num_of_posts o).2
  = Raised (TypeError ("'" +:+ type_name raw
                           +:+ "' object is not iterable")).
Proof.
  intros Hrun Htruthy Hkind. unfold reddit_search_api.
  destruct (_trigger_and_download_snapshot _ _ _ _ _ _ _ _ _ _)
    as [o1 r]. simpl in Hrun. subst r.
  rewrite Htruthy. by destruct Hkind as [[z ->]|[b ->]].
Qed.

(** X20.  Without urls (the empty list, [None], the empty string)
    [reddit_post_retrieval] prints one line and returns [None]; with a
    number other than 0 or with true for the urls it raises
    [TypeError].  Either way no request is sent and there is neither
    poll nor download. *)
Theorem retrieval_without_urls poll download
    urls days_back load_all_replies comment_limit o :
  (truthy urls = false →
   reddit_post_retrieval key net poll download py_str dict_keys
     urls days_back load_all_replies comment_limit o
   = (say "❌ No URLs provided for Reddit post retrieval" o, Ok PNone))
  ∧ (truthy urls = true →
     (∃ z, urls = PInt z) ∨ (∃ b, urls = PBool b) →
     reddit_post_retrieval key net poll download py_str dict_keys
       urls days_back load_all_replies comment_limit o
     = (o, Raised (TypeError ("'" +:+ type_name urls
                                  +:+ "' object is not iterable")))).
Proof.
  unfold reddit_post_retrieval. split.
  - by intros ->.
  - intros -> [[z ->]|[b ->]]; reflexivity.
Qed.

(** X21.  When the download hands out a list in which a comment is not
    a JSON object, [reddit_post_retrieval] raises [AttributeError] at
    the first such comment (line 181) and returns nothing, not even the
    comments before it. *)
Theorem retrieval_raises_on_a_non_object poll download
    urls days_back load_all_replies comment_limit o
    before comment behind :
  urls ≠ [] →
  (_trigger_and_download_snapshot key net poll download py_str
     trigger_url retrieval_params
     (PList (retrieval_entry days_back load_all_replies comment_limit
               <$> urls))
     "reddit comments" o).2
  = Ok (PList (before ++ comment :: behind)) →
  Forall (λ c, is_dict c = true) before → is_dict comment = false →
  (reddit_post_retrieval key net poll download py_str dict_keys
     (PList urls) days_back load_all_replies comment_limit o).2
  = Raised (AttributeError
              ("'" +:+ type_name comment
                   +:+ "' object has no attribute 'get'")).
Proof.
  intros Hurls Hrun Hbefore Hcomment. unfold reddit_post_retrieval.
  assert (truthy (PList urls) = true) as -> by (by destruct urls).
  cbn [negb py_iter].
  destruct (_trigger_and_download_snapshot _ _ _ _ _ _ _ _ _ _)
    as [o1 r]. simpl in Hrun. subst r.
  assert (truthy (PList (before ++ comment :: behind)) = true) as ->
    by (by destruct before).
  cbn [negb py_iter].
  by rewrite (parse_comments_stop before comment behind [] Hbefore Hcomment).
Qed.

(** X22.  When the download hands out a non-empty list of JSON objects,
    [reddit_post_retrieval] returns one entry for each of them, in
    their order, with the fields "comment_id", "comment" and
    "date_posted" under the keys "comment_id", "content" and "date"
    ([None] for a missing one), and their number as
    "total_retrieved". *)
Theorem retrieval_keeps_every_comment poll download
    urls days_back load_all_replies comment_limit o comments :
  urls ≠ [] →
  (_trigger_and_download_snapshot key net poll download py_str
     trigger_url retrieval_params
     (PList (retrieval_entry days_back load_all_replies comment_limit
               <$> urls))
     "reddit comments" o).2
  = Ok (PList comments) →
  comments ≠ [] → Forall (λ c, is_dict c = true) comments →
  (reddit_post_retrieval key net poll download py_str dict_keys
     (PList urls) days_back load_all_replies comment_limit o).2
  = Ok (PDict (<["comments" := PList (comment_fields <$> comments)]>
               (<["total_retrieved"
                  := PInt (Z.of_nat (List.length comments))]> ∅))).
Proof.
  intros Hurls Hrun Hne Hall. unfold reddit_post_retrieval.
  assert (truthy (PList urls) = true) as -> by (by destruct urls).
  cbn [negb py_iter].
  destruct (_trigger_and_download_snapshot _ _ _ _ _ _ _ _ _ _)
    as [o1 r]. simpl in Hrun. subst r.
  assert (truthy (PList comments) = true) as -> by (by destruct comments).
  cbn [negb py_iter].
  rewrite (parse_comments_all comments [] Hall). simpl.
  unfold py_len. by rewrite length_fmap.
Qed.

(** *** The request of the trigger *)

Lemma trigger_calls poll download url params data name o :
  (∀ id o1, ∃ more, calls (poll id o1).1 = (calls o1 ++ more)%list) →
  (∀ id o1, ∃ more, calls (download id o1).1 = (calls o1 ++ more)%list) →
  ∃ rest,
    calls (_trigger_and_download_snapshot key net poll download py_str
             url params data name o).1
    = (calls o ++ call_of key url params data :: rest)%list.
Proof.
  intros Hpoll Hdown. rewrite trigger_run. cbv zeta.
  pose proof (after_trigger_calls url params data name o) as H1.
  destruct (negb (truthy (trigger_value key net url params data o)));
    [exists []; simpl; by rewrite H1|].
  destruct (py_get _ _ _) as [id|e]; [|exists []; simpl; by rewrite H1].
  destruct (negb (truthy id)); [exists []; simpl; by rewrite H1|].
  match goal with
  | |- context [poll id ?o2] =>
      destruct (Hpoll id o2) as [more Hmore];
      destruct (poll id o2) as [o3 [polled|e]]
  end; simpl in Hmore.
  - destruct (negb (truthy polled)).
    + exists more. simpl. rewrite Hmore, H1. by rewrite <- app_assoc.
    + match goal with
      | |- context [download id ?o4] =>
          destruct (Hdown id o4) as [more' ->]
      end.
      exists (more ++ more')%list. simpl. rewrite Hmore, H1.
      by rewrite <- !app_assoc.
  - exists more. simpl. rewrite Hmore, H1. by rewrite <- app_assoc.
Qed.

(** X23.  As long as the poll and the download only add to the requests
    sent, the first request of [reddit_search_api] is the trigger: a
    POST with the bearer header to the trigger address, for the
    dataset "gd_lvz8ah06191smkebj4" discovered by keyword, with one
    entry that holds the keyword, the date, the sorting and the number
    of posts. *)
Theorem search_starts_with_its_trigger poll download
    keyword date sort_by num_of_posts o :
  (∀ id o1, ∃ more, calls (poll id o1).1 = (calls o1 ++ more)%list) →
  (∀ id o1, ∃ more, calls (download id o1).1 = (calls o1 ++ more)%list) →
  ∃ rest,
    calls (reddit_search_api key net poll download py_str dict_keys
             keyword date sort_by num_of_posts o).1
    = (calls o
       ++ mkCall "https://api.brightdata.com/datasets/v3/trigger"
            [("Authorization", "Bearer " +:+ default "None" key);
             ("Content-Type", "application/json")]
            (PDict (<["dataset_id" := PStr "gd_lvz8ah06191smkebj4"]>
                    (<["include_errors" := PStr "true"]>
                    (<["type" := PStr "discover_new"]>
                    (<["discover_by" := PStr "keyword"]> ∅)))))
            (PList [PDict (<["keyword" := keyword]>
                           (<["date" := date]>
                           (<["sort_by" := sort_by]>
                           (<["num_of_posts" := num_of_posts]> ∅))))])
          :: rest)%list.
Proof.
  intros Hpoll Hdown.
  destruct (trigger_calls poll download trigger_url search_params
              (search_data keyword date sort_by num_of_posts) "reddit" o
              Hpoll Hdown) as [rest Hrest].
  exists rest. unfold reddit_search_api.
  destruct (_trigger_and_download_snapshot _ _ _ _ _ _ _ _ _ _)
    as [o1 [raw|e]]; simpl in Hrest; [|exact Hrest].
  destruct (negb (truthy raw)); [exact Hrest|].
  destruct (py_iter dict_keys raw) as [posts|e]; [|exact Hrest].
  match goal with
  | |- context [parse_posts posts [] ?o2] =>
      pose proof (parse_posts_run posts [] o2) as [_ Hcalls];
      destruct (parse_posts posts [] o2) as [o3 parsed]
  end.
  simpl in *. by rewrite Hcalls.
Qed.

(** X24.  As long as the poll and the download only add to the requests
    sent, the first request of [reddit_post_retrieval] for a non-empty
    list of urls is the trigger for the dataset "gd_lvzdpsdlw09j6t702",
    with one entry for each url, in the order of the list, each with
    the same [days_back], [load_all_replies] and [comment_limit]. *)
Theorem retrieval_asks_for_each_url poll download
    urls days_back load_all_replies comment_limit o :
  urls ≠ [] →
  (∀ id o1, ∃ more, calls (poll id o1).1 = (calls o1 ++ more)%list) →
  (∀ id o1, ∃ more, calls (download id o1).1 = (calls o1 ++ more)%list) →
  ∃ rest,
    calls (reddit_post_retrieval key net poll download py_str dict_keys
             (PList urls) days_back load_all_replies comment_limit o).1
    = (calls o
       ++ mkCall "https://api.brightdata.com/datasets/v3/trigger"
            [("Authorization", "Bearer " +:+ default "None" key);
             ("Content-Type", "application/json")]
            (PDict (<["dataset_id" := PStr "gd_lvzdpsdlw09j6t702"]>
                    (<["include_errors" := PStr "true"]> ∅)))
            (PList ((λ url,
                      PDict (<["url" := url]>
                             (<["days_back" := days_back]>
                             (<["load_all_replies" := load_all_replies]>
                             (<["comment_limit" := comment_limit]> ∅)))))
                    <$> urls))
          :: rest)%list.
Proof.
  intros Hne Hpoll Hdown.
  destruct (trigger_calls poll download trigger_url retrieval_params
              (PList (retrieval_entry days_back load_all_replies
                        comment_limit <$> urls))
              "reddit comments" o Hpoll Hdown) as [rest Hrest].
  exists rest. unfold reddit_post_retrieval.
  assert (truthy (PList urls) = true) as -> by (by destruct urls).
  cbn [negb py_iter].
  destruct (_trigger_and_download_snapshot _ _ _ _ _ _ _ _ _ _)
    as [o1 [raw|e]]; simpl in Hrest; [|exact Hrest].
  destruct (negb (truthy raw)); [exact Hrest|].
  destruct (py_iter dict_keys raw) as [comments|e]; [|exact Hrest].
  destruct (parse_comments comments []); exact Hrest.
Qed.

End Snapshots.

Lemma search_result_shape_witness :
  parsed_some_posts = PNone
  ∨ ∃ posts,
      parsed_some_posts
      = PDict (<["parsed_posts" := PList posts]>
               (<["total_found" := PInt (Z.of_nat (List.length posts))]>
                  ∅))
      ∧ Forall (λ post, ∃ title url,
                  post = PDict (<["title" := title]>
                                (<["url" := url]> ∅))) posts.
Proof.
  apply (search_result_shape None accepting show keys_of ready
           (hands_out (PList some_posts)) (PStr "cars") default_date
           default_sort_by default_num_of_posts silent parsed_some_posts).
  vm_compute. reflexivity.
Defined.

Lemma search_keeps_the_order_witness :
  (reddit_search_api None accepting ready (hands_out (PList some_posts))
     show keys_of (PStr "cars") default_date default_sort_by
     default_num_of_posts silent).2
  = Ok (PDict (<["parsed_posts" := PList (omap parse_post some_posts)]>
               (<["total_found"
                  := PInt (Z.of_nat
                             (List.length (omap parse_post some_posts)))]>
                  ∅))).
Proof.
  apply (search_keeps_the_order None accepting show keys_of ready
           (hands_out (PList some_posts)) (PStr "cars") default_date
           default_sort_by default_num_of_posts silent some_posts).
  - vm_compute. reflexivity.
  - discriminate.
Defined.

Lemma search_raises_on_a_number_witness :
  (reddit_search_api None accepting ready (hands_out (PInt 5))
     show keys_of (PStr "cars") default_date default_sort_by
     default_num_of_posts silent).2
  = Raised (TypeError ("'" +:+ type_name (PInt 5)
                           +:+ "' object is not iterable")).
Proof.
  apply (search_raises_on_a_number None accepting show keys_of ready
           (hands_out (PInt 5)) (PStr "cars") default_date
           default_sort_by default_num_of_posts silent (PInt 5)).
  - vm_compute. reflexivity.
  - reflexivity.
  - left. by eexists.
Defined.

Lemma retrieval_without_urls_witness :
  reddit_post_retrieval None accepting ready (hands_out PNone) show keys_of
    (PList []) default_days_back default_load_all_replies
    default_comment_limit silent
  = (say "❌ No URLs provided for Reddit post retrieval" silent, Ok PNone).
Proof.
  apply (proj1 (retrieval_without_urls None accepting show keys_of ready
                  (hands_out PNone) (PList []) default_days_back
                  default_load_all_replies default_comment_limit silent)).
  reflexivity.
Defined.

Lemma retrieval_raises_on_a_non_object_witness :
  (reddit_post_retrieval None accepting ready
     (hands_out (PList ([PDict ∅] ++ PStr "deleted" :: []))) show keys_of
     (PList [PStr "u1"]) default_days_back default_load_all_replies
     default_comment_limit silent).2
  = Raised (AttributeError
              ("'" +:+ type_name (PStr "deleted")
                   +:+ "' object has no attribute 'get'")).
Proof.
  apply (retrieval_raises_on_a_non_object None accepting show keys_of
           ready (hands_out (PList ([PDict ∅] ++ PStr "deleted" :: [])))
           [PStr "u1"] default_days_back default_load_all_replies
           default_comment_limit silent [PDict ∅] (PStr "deleted") []).
  - discriminate.
  - vm_compute. reflexivity.
  - repeat constructor.
  - reflexivity.
Defined.

Lemma retrieval_keeps_every_comment_witness :
  (reddit_post_retrieval None accepting ready
     (hands_out (PList some_comments))
     show keys_of (PList [PStr "u1"]) default_days_back
     default_load_all_replies default_comment_limit silent).2
  = Ok (PDict (<["comments" := PList (comment_fields <$> some_comments)]>
               (<["total_retrieved"
                  := PInt (Z.of_nat (List.length some_comments))]> ∅))).
Proof.
  apply (retrieval_keeps_every_comment None accepting show keys_of
           ready (hands_out (PList some_comments))
           [PStr "u1"] default_days_back default_load_all_replies
           default_comment_limit silent some_comments).
  - discriminate.
  - vm_compute. reflexivity.
  - discriminate.
  - repeat constructor.
Defined.

Lemma search_starts_with_its_trigger_witness :
  ∃ rest,
    calls (reddit_search_api None refusing ready (hands_out PNone)
             show keys_of (PStr "cars") default_date default_sort_by
             default_num_of_posts silent).1
    = call_of None trigger_url search_params
        (search_data (PStr "cars") default_date default_sort_by
           default_num_of_posts)
      :: rest.
Proof.
  apply (search_starts_with_its_trigger None refusing show keys_of ready
           (hands_out PNone) (PStr "cars") default_date default_sort_by
           default_num_of_posts silent).
  - intros id o1. exists []. simpl. by rewrite app_nil_r.
  - intros id o1. exists []. simpl. by rewrite app_nil_r.
Defined.

Lemma retrieval_asks_for_each_url_witness :
  ∃ rest,
    calls (reddit_post_retrieval None refusing ready (hands_out PNone)
             show keys_of (PList [PStr "u1"; PStr "u2"]) default_days_back
             default_load_all_replies default_comment_limit silent).1
    = call_of None trigger_url retrieval_params
        (PList [retrieval_entry default_days_back default_load_all_replies
                  default_comment_limit (PStr "u1");
                retrieval_entry default_days_back default_load_all_replies
                  default_comment_limit (PStr "u2")])
      :: rest.
Proof.
  apply (retrieval_asks_for_each_url None refusing show keys_of ready
           (hands_out PNone) [PStr "u1"; PStr "u2"] default_days_back
           default_load_all_replies default_comment_limit silent).
  - discriminate.
  - intros id o1. exists []. simpl. by rewrite app_nil_r.
  - intros id o1. exists []. simpl. by rewrite app_nil_r.
Defined.

Lemma no_snapshot_no_poll_witness :
  (_trigger_and_download_snapshot None refusing ready
     (hands_out (PList some_posts)) show
     trigger_url search_params PNone "reddit" silent).2
  = Ok PNone.
Proof.
  apply (no_snapshot_no_poll None refusing show ready
           (hands_out (PList some_posts)) ready
           (hands_out (PList some_posts))).
  left. reflexivity.
Defined.

Lemma failed_poll_skips_download_witness :
  _trigger_and_download_snapshot None accepting never_ready
    (hands_out (PList some_posts)) show
    trigger_url search_params PNone "reddit" silent
  = _trigger_and_download_snapshot None accepting never_ready
      (hands_out PNone) show
      trigger_url search_params PNone "reddit" silent.
Proof.
  apply (failed_poll_skips_download None accepting show never_ready).
  intros id o1 o2 r [= _ <-]. reflexivity.
Defined.

Lemma trigger_raises_on_non_object_witness :
  (_trigger_and_download_snapshot None
     (fun _ _ => Answers (mkHttpResponse 200 "[1]" None
                            (Json (PList [PInt 1]))))
     ready (hands_out PNone) show
     trigger_url search_params PNone "reddit" silent).2
  = Raised (AttributeError "'list' object has no attribute 'get'").
Proof.
  rewrite (trigger_raises_on_non_object None
             (fun _ _ => Answers (mkHttpResponse 200 "[1]" None
                                    (Json (PList [PInt 1]))))
             show ready (hands_out PNone));
    reflexivity.
Defined.

End RedditOperationsExtra.
